(** * LP hedge backtest: position math, hedge-ratio rule and rebalancing loop

    A shallow embedding of [v3_math.py], [init_position.py],
    [backtest_eth_FREEZE_20260108.py] and [config_FREEZE_20260108.py].

    Python floats are kept abstract behind the interface [PyFloat], which has
    two instances: the real numbers (on which the algebraic properties are
    proved) and the kernel's binary64 floats (on which the functions run).
    A property proved on the real numbers is a property of the formulas in
    exact arithmetic; where rounding makes the binary64 code depart from
    it, a lemma evaluated on the binary64 instance shows the departure.
    Exceptions are values of an error monad; [print] calls are dropped. *)

From Stdlib Require Import Floats.
From Stdlib Require Import ZArith List String Bool Reals Lra Lia.
From Stdlib Require Import Sorted Permutation.
From Stdlib Require Import Ascii NArith.
Import ListNotations.

Set Implicit Arguments.

(** ** Exceptions and the error monad *)

(** One constructor per [raise ValueError(...)] site of the sources, plus the
    "math domain error" that [math.sqrt] raises on a negative argument. *)
Inductive message : Type :=
| AllPricesMustBePositive          (* v3_math.py:25 *)
| LiquidityMustBePositive          (* v3_math.py:27 *)
| PlMustBeLtPu                     (* v3_math.py:29 *)
| P0MustBeStrictlyWithin           (* v3_math.py:87 *)
| InitialUsdMustBePositive         (* v3_math.py:89 *)
| InvalidPriceRangeConfiguration   (* v3_math.py:98 *)
| EthInPoolMustBePositive          (* init_position.py:114 *)
| NeedLowerLtPriceLtUpper          (* init_position.py:117 *)
| DeltaSqrtInvAnomaly              (* init_position.py:133 *)
| DeltaSqrtAnomaly                 (* init_position.py:145 *)
| NoRowsLoaded                     (* backtest_eth:88 *)
| NotEnoughDataPoints              (* backtest_eth:168 *)
| InvalidRangeNeedP0LtPu           (* backtest_eth:184 *)
| MathDomainError.                 (* math.sqrt of a negative number *)

Inductive exn : Type :=
| ValueError (m : message)
| ZeroDivisionError
| FileNotFoundError.

Definition result (A : Type) : Type := (exn + A)%type.

Definition ret {A : Type} (a : A) : result A := inr a.
Definition raise {A : Type} (e : exn) : result A := inl e.
Definition bind {A B : Type} (m : result A) (k : A -> result B) : result B :=
  match m with
  | inl e => inl e
  | inr a => k a
  end.

Declare Scope py_scope.
Delimit Scope py_scope with py.
Notation "x <- m ;; k" := (bind m (fun x => k))
  (at level 61, m at next level, right associativity) : py_scope.
Notation "' p <- m ;; k" := (bind m (fun x => match x with p => k end))
  (at level 61, p pattern, m at next level, right associativity) : py_scope.

(** ** Python floats *)

(** The float operations the sources use.  [fdiv] and [fsqrt] are the raw
    operations; the Python-level [/] and [math.sqrt], which can raise, are
    [py_div] and [py_sqrt] below. *)
Class PyFloat (F : Type) : Type := {
  f0 : F;
  f1 : F;
  f2 : F;
  fadd : F -> F -> F;
  fsub : F -> F -> F;
  fmul : F -> F -> F;
  fdiv : F -> F -> F;
  fneg : F -> F;
  fabs : F -> F;
  fsqrt : F -> F;
  feqb : F -> F -> bool;
  fltb : F -> F -> bool;
  fleb : F -> F -> bool
}.

Definition Reqb (x y : R) : bool := if Req_dec_T x y then true else false.
Definition Rltb (x y : R) : bool := if Rlt_dec x y then true else false.
Definition Rleb (x y : R) : bool := if Rle_dec x y then true else false.

(** Exact arithmetic: floats idealised as real numbers, without rounding,
    overflow, NaN or infinities.  What is proved on this instance holds of
    the formulas of the code, and of the binary64 code only as far as
    rounding allows. *)
#[export] Instance RFloat : PyFloat R := {|
  f0 := 0%R;
  f1 := 1%R;
  f2 := 2%R;
  fadd := Rplus;
  fsub := Rminus;
  fmul := Rmult;
  fdiv := Rdiv;
  fneg := Ropp;
  fabs := Rabs;
  fsqrt := R_sqrt.sqrt;
  feqb := Reqb;
  fltb := Rltb;
  fleb := Rleb
|}.

(** IEEE 754 binary64, the floats of CPython. *)
#[export] Instance Binary64 : PyFloat float := {|
  f0 := 0%float;
  f1 := 1%float;
  f2 := 2%float;
  fadd := PrimFloat.add;
  fsub := PrimFloat.sub;
  fmul := PrimFloat.mul;
  fdiv := PrimFloat.div;
  fneg := PrimFloat.opp;
  fabs := PrimFloat.abs;
  fsqrt := PrimFloat.sqrt;
  feqb := PrimFloat.eqb;
  fltb := PrimFloat.ltb;
  fleb := PrimFloat.leb
|}.

Declare Scope pyfloat_scope.
Delimit Scope pyfloat_scope with pf.
Notation "x + y" := (fadd x y) : pyfloat_scope.
Notation "x - y" := (fsub x y) : pyfloat_scope.
Notation "x * y" := (fmul x y) : pyfloat_scope.
Notation "- x" := (fneg x) : pyfloat_scope.
Notation "x <? y" := (fltb x y) : pyfloat_scope.
Notation "x <=? y" := (fleb x y) : pyfloat_scope.
Notation "x >=? y" := (fleb y x) : pyfloat_scope.
Notation "x =? y" := (feqb x y) : pyfloat_scope.

Section PositionMath.
Context {F : Type} `{PyFloat F}.
Local Open Scope py_scope.
Local Open Scope pyfloat_scope.

(** [math.sqrt(x)]: raises [ValueError] ("math domain error") when [x < 0]. *)
Definition py_sqrt (x : F) : result F :=
  if x <? f0 then raise (ValueError MathDomainError) else ret (fsqrt x).

(** [x / y]: raises [ZeroDivisionError] when [y == 0]. *)
Definition py_div (x y : F) : result F :=
  if y =? f0 then raise ZeroDivisionError else ret (fdiv x y).

(** *** v3_math.py *)

Definition amounts_from_L (P Pl Pu L : F) : result (F * F) :=
  if (P <=? f0) || (Pl <=? f0) || (Pu <=? f0) then
    raise (ValueError AllPricesMustBePositive)
  else if L <=? f0 then
    raise (ValueError LiquidityMustBePositive)
  else if Pl >=? Pu then
    raise (ValueError PlMustBeLtPu)
  else
    sqrtP <- py_sqrt P ;;
    sqrtPa <- py_sqrt Pl ;;
    sqrtPb <- py_sqrt Pu ;;
    if P <=? Pl then
      ia <- py_div f1 sqrtPa ;;
      ib <- py_div f1 sqrtPb ;;
      ret (L * (ia - ib), f0)
    else if P <? Pu then
      ip <- py_div f1 sqrtP ;;
      ib <- py_div f1 sqrtPb ;;
      ret (L * (ip - ib), L * (sqrtP - sqrtPa))
    else
      ret (f0, L * (sqrtPb - sqrtPa)).

Definition lp_value (P Pl Pu L : F) : result F :=
  '(x, y) <- amounts_from_L P Pl Pu L ;;
  ret (x * P + y).

Definition L_from_initial_usd (P0 Pl Pu initial_usd : F) : result F :=
  if negb ((Pl <? P0) && (P0 <? Pu)) then
    raise (ValueError P0MustBeStrictlyWithin)
  else if initial_usd <=? f0 then
    raise (ValueError InitialUsdMustBePositive)
  else
    sqrtP0 <- py_sqrt P0 ;;
    sqrtPa <- py_sqrt Pl ;;
    sqrtPb <- py_sqrt Pu ;;
    q <- py_div P0 sqrtPb ;;
    let value_per_L := f2 * sqrtP0 - q - sqrtPa in
    if value_per_L <=? f0 then
      raise (ValueError InvalidPriceRangeConfiguration)
    else
      py_div initial_usd value_per_L.

(** *** init_position.py *)

Definition calc_usdt_for_eth_in_pool (price lower upper eth_in_pool : F)
  : result F :=
  if eth_in_pool <=? f0 then
    raise (ValueError EthInPoolMustBePositive)
  else if negb ((lower <? price) && (price <? upper)) then
    raise (ValueError NeedLowerLtPriceLtUpper)
  else
    sqrt_price <- py_sqrt price ;;
    sqrt_lower <- py_sqrt lower ;;
    sqrt_upper <- py_sqrt upper ;;
    ip <- py_div f1 sqrt_price ;;
    iu <- py_div f1 sqrt_upper ;;
    let delta_sqrt_inv := ip - iu in
    if delta_sqrt_inv <=? f0 then
      raise (ValueError DeltaSqrtInvAnomaly)
    else
      liquidity <- py_div eth_in_pool delta_sqrt_inv ;;
      let delta_sqrt := sqrt_price - sqrt_lower in
      if delta_sqrt <? f0 then
        raise (ValueError DeltaSqrtAnomaly)
      else
        ret (liquidity * delta_sqrt).

(** *** backtest_eth: the hedge-ratio rule k(P) *)

Definition calculate_k (P Pl Pu k0 : F) : result F :=
  if P <=? Pl then ret f1
  else if P >=? Pu then ret f0
  else
    let mid := fdiv (Pl + Pu) f2 in
    if P <=? mid then
      q <- py_div ((f1 - k0) * (P - Pl)) (mid - Pl) ;;
      ret (f1 - q)
    else
      q <- py_div (k0 * (P - mid)) (Pu - mid) ;;
      ret (k0 - q).

End PositionMath.

(** ** The backtest engine (backtest_eth_FREEZE_20260108.py) *)

(** A timestamp is an instant on the UTC time line (the sources normalise
    every [datetime] to UTC before comparing). *)
Definition timestamp : Type := Z.

(** config_FREEZE_20260108.py, imported as [cfg].  [P0_MODE] is read with
    [getattr(cfg, "P0_MODE", "fixed")], hence optional. *)
Module Config.
Record t (F : Type) : Type := mk {
  CSV_FILE : string;
  START_TS : timestamp;
  END_TS : timestamp;
  P0_MODE : option string;
  P0 : F;
  PL : F;
  PU : F;
  ETH_IN_POOL : F;
  HEDGE_K0 : F;
  THRESHOLD : F
}.
End Config.

(** One entry of [rebalance_events]. *)
Module Event.
Record t (F : Type) : Type := mk {
  ts : timestamp;
  price : F;
  anchor_before : F;
  move : F;
  k : F;
  eth_now : F;
  H_before : F;
  H_target : F;
  delta_H : F;
  cash : F;
  hedge_pnl_mtm : F
}.
End Event.

(** The local variables the loop of [run_backtest] mutates. *)
Module State.
Record t (F : Type) : Type := mk {
  current_H : F;
  cash : F;
  anchor_price : F;
  rebalance_events : list (Event.t F);
  rebalance_count : nat;
  cumulative_abs_delta_h : F
}.
End State.

Module Summary.
Record t (F : Type) : Type := mk {
  rebalance_count : nat;
  cumulative_abs_delta_h : F;
  hedge_pnl : F;
  lp_pnl : F;
  total_pnl : F;
  final_price : F;
  lp_value_start : F;
  lp_value_end : F;
  final_hedge_position : F;
  P0 : F;
  Pl : F;
  Pu : F;
  L : F;
  eth_in_pool : F;
  initial_usdt_required : F;
  threshold : F;
  hedge_k0 : F
}.
End Summary.

Module Output.
Record t (F : Type) : Type := mk {
  rebalance_events : list (Event.t F);
  summary : Summary.t F
}.
End Output.

Section Engine.
Context {F : Type} `{PyFloat F}.
Local Open Scope py_scope.
Local Open Scope pyfloat_scope.

Definition row : Type := (timestamp * F)%type.

(** [rows.sort(key=lambda x: x[0])]: a stable sort on the timestamp. *)
Fixpoint insert_row (x : row) (l : list row) : list row :=
  match l with
  | [] => [x]
  | y :: l' => if (fst x <=? fst y)%Z then x :: l else y :: insert_row x l'
  end.

Fixpoint sort_rows (l : list row) : list row :=
  match l with
  | [] => []
  | x :: l' => insert_row x (sort_rows l')
  end.

(** [files] is the file system as [load_eth_1h_csv] sees it: the rows of a
    CSV file after [_parse_ts_any] and [float(...)], or the exception that
    opening or parsing it raises. *)
Definition load_eth_1h_csv (files : string -> result (list row))
    (filename : string) : result (list row) :=
  rows <- files filename ;;
  match rows with
  | [] => raise (ValueError NoRowsLoaded)
  | _ => ret (sort_rows rows)
  end.

Definition filter_period (data : list row) (start_ts end_ts : timestamp)
  : list row :=
  filter (fun r => (start_ts <=? fst r)%Z && (fst r <=? end_ts)%Z) data.

(** [a or b] on strings: the empty string is falsy. *)
Definition str_or (a : option string) (b : string) : string :=
  match a with
  | Some s => if String.eqb s EmptyString then b else s
  | None => b
  end.

(** [a or b] on datetimes (always truthy) and [a if a is not None else b]. *)
Definition if_not_None {A : Type} (a : option A) (b : A) : A :=
  match a with
  | Some v => v
  | None => b
  end.

Section Loop.
Variables (Pl Pu L hedge_k0 threshold : F).

(** The body of [for i in range(1, len(price_data))]. *)
Definition rebalance_step (st : State.t F) (tick : row)
  : result (State.t F) :=
  let '(ts, P_now) := tick in
  let anchor_price := State.anchor_price st in
  move <- py_div (fabs (P_now - anchor_price)) anchor_price ;;
  if move <? threshold then ret st
  else
    let H_before := State.current_H st in
    k <- calculate_k P_now Pl Pu hedge_k0 ;;
    '(eth_now, usdt_now) <- amounts_from_L P_now Pl Pu L ;;
    let target_H := - (eth_now * k) in
    let delta_h := target_H - H_before in
    let cumulative_abs_delta_h :=
      State.cumulative_abs_delta_h st + fabs delta_h in
    let cash := State.cash st - delta_h * P_now in
    let current_H := target_H in
    let hedge_pnl_mtm := cash + current_H * P_now in
    let rebalance_count := S (State.rebalance_count st) in
    let rebalance_events :=
      State.rebalance_events st ++
      [Event.mk ts P_now anchor_price move k eth_now H_before target_H
                delta_h cash hedge_pnl_mtm] in
    ret (State.mk current_H cash P_now rebalance_events rebalance_count
                  cumulative_abs_delta_h).

Fixpoint iterate (st : State.t F) (ticks : list row)
  : result (State.t F) :=
  match ticks with
  | [] => ret st
  | tick :: rest => st' <- rebalance_step st tick ;; iterate st' rest
  end.
End Loop.

Definition run_backtest (cfg : Config.t F)
    (files : string -> result (list row))
    (csv_file : option string) (start_ts end_ts : option timestamp)
    (Pl Pu eth_in_pool hedge_k0 threshold : option F)
  : result (Output.t F) :=
  let csv_file := str_or csv_file (Config.CSV_FILE cfg) in
  let start_ts := if_not_None start_ts (Config.START_TS cfg) in
  let end_ts := if_not_None end_ts (Config.END_TS cfg) in
  let Pl := if_not_None Pl (Config.PL cfg) in
  let Pu := if_not_None Pu (Config.PU cfg) in
  let eth_in_pool := if_not_None eth_in_pool (Config.ETH_IN_POOL cfg) in
  let hedge_k0 := if_not_None hedge_k0 (Config.HEDGE_K0 cfg) in
  let threshold := if_not_None threshold (Config.THRESHOLD cfg) in
  data_all <- load_eth_1h_csv files csv_file ;;
  let price_data := filter_period data_all start_ts end_ts in
  match price_data with
  | [] | [_] => raise (ValueError NotEnoughDataPoints)
  | first :: rest =>
      let P0 :=
        if String.eqb (if_not_None (Config.P0_MODE cfg) "fixed"%string)
                      "from_data"%string
        then snd first
        else Config.P0 cfg in
      initial_usdt <- calc_usdt_for_eth_in_pool P0 Pl Pu eth_in_pool ;;
      sqrtP <- py_sqrt P0 ;;
      sqrtPu <- py_sqrt Pu ;;
      ip <- py_div f1 sqrtP ;;
      iu <- py_div f1 sqrtPu ;;
      let denom := ip - iu in
      if denom <=? f0 then raise (ValueError InvalidRangeNeedP0LtPu)
      else
        L <- py_div eth_in_pool denom ;;
        '(eth0, usdt0) <- amounts_from_L P0 Pl Pu L ;;
        let initial_short_eth := eth_in_pool * hedge_k0 in
        let current_H := - initial_short_eth in
        let cash := f0 + initial_short_eth * P0 in
        lp_value_start <- lp_value P0 Pl Pu L ;;
        st <- iterate Pl Pu L hedge_k0 threshold
                (State.mk current_H cash P0 [] 0%nat f0) rest ;;
        let final_price := snd (last rest first) in
        let hedge_pnl := State.cash st + State.current_H st * final_price in
        lp_value_end <- lp_value final_price Pl Pu L ;;
        let lp_pnl := lp_value_end - lp_value_start in
        let total_pnl := lp_pnl + hedge_pnl in
        ret (Output.mk (State.rebalance_events st)
               (Summary.mk (State.rebalance_count st)
                  (State.cumulative_abs_delta_h st)
                  hedge_pnl lp_pnl total_pnl final_price
                  lp_value_start lp_value_end (State.current_H st)
                  P0 Pl Pu L eth_in_pool initial_usdt threshold hedge_k0))
  end.

End Engine.

(** Whether [getattr(cfg, "P0_MODE", "fixed") == "from_data"]. *)
Definition from_data_mode {F : Type} (cfg : Config.t F) : bool :=
  String.eqb (if_not_None (Config.P0_MODE cfg) "fixed"%string)
    "from_data"%string.

(** The initial price a run uses: the first point of the window when
    [cfg.P0_MODE] is "from_data", [cfg.P0] otherwise. *)
Definition resolve_P0 {F : Type} (cfg : Config.t F) (first : timestamp * F) : F :=
  if String.eqb (if_not_None (Config.P0_MODE cfg) "fixed"%string)
       "from_data"%string
  then snd first else Config.P0 cfg.

(** ** The trigger rule, as a function of the price path alone *)

(** The ticks that trigger, each with the anchor it was compared to: scanning
    the points after the first, a tick triggers when
    [|Pnow - anchor| / anchor >= threshold], and the anchor moves to [Pnow]
    exactly then.  [rebalance_step] is compared with this in
    [iterate_trigger_schedule]. *)
Fixpoint trigger_schedule (threshold anchor : R) (ticks : list (timestamp * R))
  : list (timestamp * R * R) :=
  match ticks with
  | [] => []
  | (ts, Pnow) :: rest =>
      if Rleb threshold (Rabs (Pnow - anchor) / anchor)
      then (ts, Pnow, anchor) :: trigger_schedule threshold Pnow rest
      else trigger_schedule threshold anchor rest
  end.

(** The state a triggered tick leaves, given the ratio and the primary amount
    computed at its price. *)
Definition rebalanced (st : State.t R) (ts : timestamp) (P_now k eth_now : R)
  : State.t R :=
  let anchor := State.anchor_price st in
  let target_H := (- (eth_now * k))%R in
  let delta_h := (target_H - State.current_H st)%R in
  let cash := (State.cash st - delta_h * P_now)%R in
  State.mk target_H cash P_now
    (State.rebalance_events st ++
     [Event.mk ts P_now anchor (Rabs (P_now - anchor) / anchor)%R k eth_now
        (State.current_H st) target_H delta_h cash (cash + target_H * P_now)%R])
    (S (State.rebalance_count st))
    (State.cumulative_abs_delta_h st + Rabs delta_h)%R.

(** The books of a sequence of events, starting from position [H] and cash
    [cash]: each event's ratio and primary amount are those computed at its
    price, its target is [-(eth_now * k)], its delta the change of position,
    its cash the previous cash less [delta * price], its mark-to-market PnL
    the cash plus the position valued at its price; the next event starts
    from this one's target and cash. *)
Fixpoint accounting_chain (Pl Pu L hedge_k0 H cash : R)
    (events : list (Event.t R)) : Prop :=
  match events with
  | [] => True
  | e :: events' =>
      calculate_k (Event.price e) Pl Pu hedge_k0 = inr (Event.k e)
      /\ (exists usdt_now,
             amounts_from_L (Event.price e) Pl Pu L
             = inr (Event.eth_now e, usdt_now))
      /\ Event.H_before e = H
      /\ Event.H_target e = (- (Event.eth_now e * Event.k e))%R
      /\ Event.delta_H e = (Event.H_target e - Event.H_before e)%R
      /\ Event.cash e = (cash - Event.delta_H e * Event.price e)%R
      /\ Event.hedge_pnl_mtm e
         = (Event.cash e + Event.H_target e * Event.price e)%R
      /\ accounting_chain Pl Pu L hedge_k0 (Event.H_target e) (Event.cash e)
           events'
  end.

(** What an event records of its tick. *)
Definition event_key {F : Type} (e : Event.t F) : timestamp * F * F :=
  (Event.ts e, Event.price e, Event.anchor_before e).

(** ** The frozen configuration and a sample price file *)

(** config_FREEZE_20260108.py, with its timestamps in epoch seconds. *)
Definition frozen_config : Config.t R :=
  Config.mk "eth_1h.csv" 1762473600%Z 1767657600%Z (Some "from_data"%string)
    3150%R 2651%R 3498%R 1%R (7 / 10)%R (5 / 100)%R.

(** The same module with [P0_MODE = "fixed"] and a given [P0]. *)
Definition fixed_config (P0 : R) : Config.t R :=
  Config.mk "eth_1h.csv" 1762473600%Z 1767657600%Z (Some "fixed"%string)
    P0 2651%R 3498%R 1%R (7 / 10)%R (5 / 100)%R.

(** A config module that shares only the initial-price mode with the frozen
    one. *)
Definition unrelated_config : Config.t R :=
  Config.mk "other.csv" 0%Z 1%Z (Some "from_data"%string)
    1%R 2%R 3%R 4%R 5%R 6%R.

(** Ten hourly closes rising from 2900 to 3200. *)
Definition sample_rows : list (timestamp * R) :=
  [(1762473600%Z, 2900%R);
   (1762477200%Z, 2930%R);
   (1762480800%Z, 2960%R);
   (1762484400%Z, 3000%R);
   (1762488000%Z, 3030%R);
   (1762491600%Z, 3060%R);
   (1762495200%Z, 3100%R);
   (1762498800%Z, 3130%R);
   (1762502400%Z, 3160%R);
   (1762506000%Z, 3200%R)].

Definition sample_files (name : string) : result (list (timestamp * R)) :=
  if String.eqb name "eth_1h.csv" then ret sample_rows
  else raise FileNotFoundError.

(** The same configuration and file on binary64 floats. *)
#[warnings="-inexact-float"]
Definition frozen_config64 : Config.t float :=
  Config.mk "eth_1h.csv" 1762473600%Z 1767657600%Z (Some "from_data"%string)
    3150%float 2651%float 3498%float 1%float 0.7%float 0.05%float.

(** The same with [P0_MODE = "fixed"] and a given [P0]. *)
#[warnings="-inexact-float"]
Definition fixed_config64 (P0 : float) : Config.t float :=
  Config.mk "eth_1h.csv" 1762473600%Z 1767657600%Z (Some "fixed"%string)
    P0 2651%float 3498%float 1%float 0.7%float 0.05%float.

Definition sample_rows64 : list (timestamp * float) :=
  [(1762473600%Z, 2900%float);
   (1762477200%Z, 2930%float);
   (1762480800%Z, 2960%float);
   (1762484400%Z, 3000%float);
   (1762488000%Z, 3030%float);
   (1762491600%Z, 3060%float);
   (1762495200%Z, 3100%float);
   (1762498800%Z, 3130%float);
   (1762502400%Z, 3160%float);
   (1762506000%Z, 3200%float)].

Definition sample_files64 (name : string) : result (list (timestamp * float)) :=
  if String.eqb name "eth_1h.csv" then ret sample_rows64
  else raise FileNotFoundError.

(** The fields of a run the binary64 examples look at: event prices,
    rebalance count, and whether [total_pnl] is [lp_pnl + hedge_pnl]. *)
Definition digest64 (r : result (Output.t float))
  : option (list float * nat * bool) :=
  match r with
  | inl _ => None
  | inr out =>
      let s := Output.summary out in
      Some (map (@Event.price float) (Output.rebalance_events out),
            Summary.rebalance_count s,
            PrimFloat.eqb (Summary.total_pnl s)
              (PrimFloat.add (Summary.lp_pnl s) (Summary.hedge_pnl s)))
  end.

(** ** The position class (v3_math.py, [class LPPosition]) *)

(** What [LPPosition.__init__] and [from_initial_value] can raise: the three
    [ValueError]s of the constructor, or an exception of a function they
    call. *)
Inductive position_error : Type :=
| PositionLiquidityMustBePositive   (* v3_math.py:128 *)
| PositionPricesMustBePositive      (* v3_math.py:130 *)
| PlowerMustBeLtPupper              (* v3_math.py:132 *)
| Raised (e : exn).

Module LPPosition.
Record t (F : Type) : Type := mk {
  L : F;
  Plower : F;
  Pupper : F;
  sqrtPa : F;
  sqrtPb : F
}.

Section Methods.
Context {F : Type} `{PyFloat F}.
Local Open Scope pyfloat_scope.

(** [__init__] *)
Definition init (L Plower Pupper : F) : position_error + t F :=
  if L <=? f0 then inl PositionLiquidityMustBePositive
  else if (Plower <=? f0) || (Pupper <=? f0) then
    inl PositionPricesMustBePositive
  else if Plower >=? Pupper then inl PlowerMustBeLtPupper
  else
    match py_sqrt Plower with
    | inl e => inl (Raised e)
    | inr sqrtPa =>
        match py_sqrt Pupper with
        | inl e => inl (Raised e)
        | inr sqrtPb => inr (mk L Plower Pupper sqrtPa sqrtPb)
        end
    end.

Definition get_amounts (self : t F) (P : F) : result (F * F) :=
  amounts_from_L P (Plower self) (Pupper self) (LPPosition.L self).

Definition get_value (self : t F) (P : F) : result F :=
  lp_value P (Plower self) (Pupper self) (LPPosition.L self).

Definition from_initial_value (P0 Plower Pupper initial_value : F)
  : position_error + t F :=
  match L_from_initial_usd P0 Plower Pupper initial_value with
  | inl e => inl (Raised e)
  | inr L => init L Plower Pupper
  end.
End Methods.
End LPPosition.

(** ** Order of rows *)

(** Rows compared by timestamp, as [rows.sort(key=lambda x: x[0])] does. *)
Definition ts_le {F : Type} (a b : timestamp * F) : Prop :=
  (fst a <= fst b)%Z.

(** The rows of a list that carry a given timestamp, in list order. *)
Definition rows_at {F : Type} (t : timestamp) (l : list (timestamp * F))
  : list (timestamp * F) :=
  filter (fun r => (fst r =? t)%Z) l.

(** The conditions under which a run on a given window returns. *)
Definition run_conditions (Pl Pu eth_in_pool threshold P0 : R)
    (first : timestamp * R) (rest : list (timestamp * R)) : Prop :=
  (0 < Pl /\ Pl < P0 /\ P0 < Pu /\ 0 < eth_in_pool)%R
  /\ Forall (fun k => (0 < snd (fst k))%R) (trigger_schedule threshold P0 rest)
  /\ (0 < snd (last rest first))%R.

(** ** Two sums over the event log *)

(** The turnover the loop accumulates: [|delta_H|] of each event, added in
    log order starting from [acc]. *)
Definition sum_abs_delta (acc : R) (events : list (Event.t R)) : R :=
  fold_left (fun a e => (a + Rabs (Event.delta_H e))%R) events acc.

(** The profit of holding the hedge between trades: the position [H] held
    from price [P_prev] to the next event's price, then the event's target
    from there on, and the last position up to [final_price]. *)
Fixpoint holding_pnl (H P_prev : R) (events : list (Event.t R))
    (final_price : R) : R :=
  match events with
  | [] => (H * (final_price - P_prev))%R
  | e :: events' =>
      (H * (Event.price e - P_prev)
       + holding_pnl (Event.H_target e) (Event.price e) events' final_price)%R
  end.

(** ** Reading the file: columns and timestamps (backtest_eth.py) *)

(** What [_pick_col] raises (backtest_eth:54). *)
Inductive column_error : Type :=
| CannotFindColumns.

(** A [dict] with string keys: the keys in insertion order, each once;
    setting a key that is present replaces its value in place. *)
Definition dict (V : Type) : Type := list (string * V).

Fixpoint dict_set {V : Type} (k : string) (v : V) (d : dict V) : dict V :=
  match d with
  | [] => [(k, v)]
  | (k', v') :: d' =>
      if String.eqb k' k then (k', v) :: d' else (k', v') :: dict_set k v d'
  end.

Fixpoint dict_get {V : Type} (k : string) (d : dict V) : option V :=
  match d with
  | [] => None
  | (k', v') :: d' => if String.eqb k' k then Some v' else dict_get k d'
  end.

Section Columns.
(** [str.strip] and [str.lower]. *)
Variables (strip lower : string -> string).

(** [{fn.strip().lower(): fn for fn in fieldnames if fn is not None}] *)
Definition norm_dict (fieldnames : list (option string)) : dict string :=
  fold_left
    (fun norm fn =>
       match fn with
       | Some fn => dict_set (lower (strip fn)) fn norm
       | None => norm
       end)
    fieldnames [].

(** [for c in candidates: if c in norm: return norm[c]], then the [raise]. *)
Fixpoint first_candidate (norm : dict string) (candidates : list string)
  : column_error + string :=
  match candidates with
  | [] => inl CannotFindColumns
  | c :: candidates' =>
      match dict_get c norm with
      | Some fn => inr fn
      | None => first_candidate norm candidates'
      end
  end.

Definition _pick_col (fieldnames : list (option string))
    (candidates : list string) : column_error + string :=
  first_candidate (norm_dict fieldnames) candidates.

End Columns.

(** [str.strip] and [str.lower] on ASCII strings: the white space of
    [str.isspace] below 128 is 9-13 and 28-32; [lower] moves A-Z to a-z.
    They agree with Python on strings of code points below 128 only (Python
    also strips white space such as U+00A0 and lower-cases letters beyond
    ASCII); they serve the examples, the theorems take [strip] and [lower]
    as parameters. *)
Definition ascii_isspace (c : ascii) : bool :=
  let n := N_of_ascii c in
  ((9 <=? n) && (n <=? 13) || (28 <=? n) && (n <=? 32))%N.

Fixpoint ascii_lstrip (s : string) : string :=
  match s with
  | EmptyString => EmptyString
  | String c s' => if ascii_isspace c then ascii_lstrip s' else s
  end.

Fixpoint ascii_rstrip (s : string) : string :=
  match s with
  | EmptyString => EmptyString
  | String c s' =>
      match ascii_rstrip s' with
      | EmptyString => if ascii_isspace c then EmptyString
                       else String c EmptyString
      | r => String c r
      end
  end.

Definition ascii_strip (s : string) : string := ascii_rstrip (ascii_lstrip s).

Fixpoint ascii_lower (s : string) : string :=
  match s with
  | EmptyString => EmptyString
  | String c s' =>
      let n := N_of_ascii c in
      String (if ((65 <=? n) && (n <=? 90))%N then ascii_of_N (n + 32) else c)
        (ascii_lower s')
  end.

(** [s.replace("Z", "+00:00")] *)
Fixpoint replace_Z (s : string) : string :=
  match s with
  | EmptyString => EmptyString
  | String c s' =>
      if Ascii.eqb c "Z"%char then ("+00:00" ++ replace_Z s')%string
      else String c (replace_Z s')
  end.

(** The float of an integer literal, built with the instance's own
    arithmetic; on binary64 every step is exact for the powers of ten
    [_parse_ts_any] compares with. *)
Fixpoint float_of_positive {F : Type} `{PyFloat F} (p : positive) : F :=
  match p with
  | xH => f1
  | xO p' => fmul f2 (float_of_positive p')
  | xI p' => fadd (fmul f2 (float_of_positive p')) f1
  end.

Section Timestamps.
Context {F : Type} `{PyFloat F}.
Local Open Scope py_scope.
Local Open Scope pyfloat_scope.

(** [str.strip]. *)
Variable strip : string -> string.
(** Lines 26-31: [datetime.fromisoformat] of the string, brought to UTC;
    [None] when the [try] block raises. *)
Variable fromisoformat_utc : string -> option timestamp.
(** [float(s)], which raises on a string that is no number. *)
Variable float_of_str : string -> result F.
(** [datetime.fromtimestamp(sec, tz=timezone.utc)], which raises out of the
    platform's range. *)
Variable fromtimestamp : F -> result timestamp.

Definition _parse_ts_any (ts_raw : option string) : result timestamp :=
  let s := strip (str_or ts_raw EmptyString) in
  match fromisoformat_utc (replace_Z s) with
  | Some dt => ret dt
  | None =>
      x <- float_of_str s ;;
      let ax := fabs x in
      let sec :=
        if ax >=? float_of_positive 1000000000000000000 then
          fdiv x (float_of_positive 1000000000)
        else if ax >=? float_of_positive 1000000000000000 then
          fdiv x (float_of_positive 1000000)
        else if ax >=? float_of_positive 1000000000000 then
          fdiv x (float_of_positive 1000)
        else x in
      fromtimestamp sec
  end.

End Timestamps.

(** ** The sweep driver (sweep_2d_FREEZE_20260108.py) *)

(** [run_once]: one cell of the sweep; every other argument of
    [run_backtest] is left to the config module.  The redirection of
    [stdout] is dropped with the [print] calls. *)
Definition run_once {F : Type} `{PyFloat F} (cfg : Config.t F)
    (files : string -> result (list (timestamp * F)))
    (threshold hedge_k0 : F) : result (Output.t F) :=
  run_backtest cfg files None None None None None None
    (Some hedge_k0) (Some threshold).

(** * Properties, on the real-number instance *)

Unset Implicit Arguments.

Section RealFacts.
Local Open Scope R_scope.

Lemma Rltb_true (x y : R) : x < y -> Rltb x y = true.
Proof. intros Hxy; unfold Rltb; destruct (Rlt_dec x y); [reflexivity | lra]. Qed.

Lemma Rltb_false (x y : R) : y <= x -> Rltb x y = false.
Proof. intros Hxy; unfold Rltb; destruct (Rlt_dec x y); [lra | reflexivity]. Qed.

Lemma Rleb_true (x y : R) : x <= y -> Rleb x y = true.
Proof. intros Hxy; unfold Rleb; destruct (Rle_dec x y); [reflexivity | lra]. Qed.

Lemma Rleb_false (x y : R) : y < x -> Rleb x y = false.
Proof. intros Hxy; unfold Rleb; destruct (Rle_dec x y); [lra | reflexivity]. Qed.

Lemma Reqb_false (x y : R) : x <> y -> Reqb x y = false.
Proof.
  intros Hxy; unfold Reqb; destruct (Req_dec_T x y); [contradiction | reflexivity].
Qed.

Lemma Reqb_true (x y : R) : x = y -> Reqb x y = true.
Proof.
  intros Hxy; unfold Reqb; destruct (Req_dec_T x y); [reflexivity | contradiction].
Qed.

Lemma Rltb_spec (x y : R) : reflect (x < y) (Rltb x y).
Proof. unfold Rltb; destruct (Rlt_dec x y); constructor; assumption. Qed.

Lemma Rleb_spec (x y : R) : reflect (x <= y) (Rleb x y).
Proof. unfold Rleb; destruct (Rle_dec x y); constructor; assumption. Qed.

Lemma Reqb_spec (x y : R) : reflect (x = y) (Reqb x y).
Proof. unfold Reqb; destruct (Req_dec_T x y); constructor; assumption. Qed.

Lemma py_sqrt_nonneg (x : R) : 0 <= x -> py_sqrt x = inr (sqrt x).
Proof. intros Hx; unfold py_sqrt; cbn. rewrite Rltb_false by assumption. reflexivity. Qed.

Lemma py_sqrt_neg (x : R) :
  x < 0 -> py_sqrt x = inl (ValueError MathDomainError).
Proof. intros Hx; unfold py_sqrt; cbn. rewrite Rltb_true by assumption. reflexivity. Qed.

Lemma py_div_nonzero (x y : R) : y <> 0 -> py_div x y = inr (x / y).
Proof. intros Hy; unfold py_div; cbn. rewrite Reqb_false by assumption. reflexivity. Qed.

Lemma py_div_zero (x : R) : py_div x 0 = inl ZeroDivisionError.
Proof. unfold py_div; cbn. rewrite Reqb_true by reflexivity. reflexivity. Qed.

Lemma sqrt_pos (x : R) : 0 < x -> 0 < sqrt x.
Proof. apply sqrt_lt_R0. Qed.

Lemma sqrt_lt (x y : R) : 0 <= x -> x < y -> sqrt x < sqrt y.
Proof. intros Hx Hxy; apply sqrt_lt_1; lra. Qed.

Lemma inv_lt (a b : R) : 0 < a -> a < b -> 1 / b < 1 / a.
Proof.
  intros Ha Hab. unfold Rdiv. rewrite !Rmult_1_l.
  apply Rinv_lt_contravar; [nra | assumption].
Qed.

Lemma inv_sqrt_lt (x y : R) : 0 < x -> x < y -> 1 / sqrt y < 1 / sqrt x.
Proof.
  intros Hx Hxy. apply inv_lt; [apply sqrt_pos; assumption | apply sqrt_lt; lra].
Qed.
End RealFacts.

(** ** PositionMath: [amounts_from_L] *)

Section AmountsFromL.
Local Open Scope R_scope.

Lemma amounts_from_L_valid (P Pl Pu L : R) :
  0 < P -> 0 < Pl -> Pl < Pu -> 0 < L ->
  amounts_from_L P Pl Pu L =
    if Rleb P Pl then inr (L * (1 / sqrt Pl - 1 / sqrt Pu), 0)
    else if Rltb P Pu then
      inr (L * (1 / sqrt P - 1 / sqrt Pu), L * (sqrt P - sqrt Pl))
    else inr (0, L * (sqrt Pu - sqrt Pl)).
Proof.
  intros HP HPl Hlu HL.
  assert (HPu : 0 < Pu) by lra.
  pose proof (sqrt_pos _ HP). pose proof (sqrt_pos _ HPl). pose proof (sqrt_pos _ HPu).
  unfold amounts_from_L; cbn.
  rewrite !Rleb_false by lra; cbn.
  rewrite !py_sqrt_nonneg by lra; cbn.
  rewrite !py_div_nonzero by lra; cbn.
  reflexivity.
Qed.



End AmountsFromL.

(** ** HedgeRatioRule: [calculate_k] *)

Section CalculateK.
Local Open Scope R_scope.

(** The value of [calculate_k] on a proper range, as a real function. *)
Lemma calculate_k_valid (P Pl Pu k0 : R) :
  Pl < Pu ->
  calculate_k P Pl Pu k0 =
    inr (if Rleb P Pl then 1
         else if Rleb Pu P then 0
         else if Rleb P ((Pl + Pu) / 2)
              then 1 - (1 - k0) * (P - Pl) / ((Pl + Pu) / 2 - Pl)
              else k0 - k0 * (P - (Pl + Pu) / 2) / (Pu - (Pl + Pu) / 2)).
Proof.
  intros Hlu. unfold calculate_k; cbn.
  destruct (Rleb P Pl); [reflexivity |].
  destruct (Rleb Pu P); [reflexivity |].
  destruct (Rleb P ((Pl + Pu) / 2));
    rewrite py_div_nonzero by lra; reflexivity.
Qed.



End CalculateK.

(** ** PositionMath and InitialAllocationSolver: the two sizing formulas *)

Section Sizing.
Local Open Scope R_scope.

(** The denominator of [L_from_initial_usd] is positive strictly inside the
    range. *)
Lemma value_per_L_pos (P0 Pl Pu : R) :
  0 <= Pl -> Pl < P0 -> P0 < Pu ->
  0 < 2 * sqrt P0 - P0 / sqrt Pu - sqrt Pl.
Proof.
  intros HPl Hl Hu.
  assert (Hb : 0 < sqrt P0) by (apply sqrt_pos; lra).
  assert (Hc : 0 < sqrt Pu) by (apply sqrt_pos; lra).
  assert (Hab : sqrt Pl < sqrt P0) by (apply sqrt_lt; lra).
  assert (Hbc : sqrt P0 < sqrt Pu) by (apply sqrt_lt; lra).
  assert (Hq : P0 / sqrt Pu < sqrt P0).
  { apply Rmult_lt_reg_r with (sqrt Pu); [assumption |].
    unfold Rdiv. rewrite Rmult_assoc, Rinv_l by lra. rewrite Rmult_1_r.
    rewrite <- (sqrt_def P0) at 1 by lra. nra. }
  lra.
Qed.

(** The denominator of [calc_usdt_for_eth_in_pool] is positive below the
    upper bound. *)
Lemma delta_sqrt_inv_pos (price upper : R) :
  0 < price -> price < upper -> 0 < 1 / sqrt price - 1 / sqrt upper.
Proof. intros Hp Hu. pose proof (inv_sqrt_lt price upper Hp Hu). lra. Qed.

(** [L_from_initial_usd] as a real function: the checks in the order the
    source makes them; the [value_per_L <= 0] check never fires. *)
Lemma L_from_initial_usd_cases (P0 Pl Pu initial_usd : R) :
  L_from_initial_usd P0 Pl Pu initial_usd =
    if negb (Rltb Pl P0 && Rltb P0 Pu) then
      inl (ValueError P0MustBeStrictlyWithin)
    else if Rleb initial_usd 0 then inl (ValueError InitialUsdMustBePositive)
    else if Rltb P0 0 || Rltb Pl 0 then inl (ValueError MathDomainError)
    else inr (initial_usd / (2 * sqrt P0 - P0 / sqrt Pu - sqrt Pl)).
Proof.
  unfold L_from_initial_usd; cbn.
  destruct (Rltb_spec Pl P0) as [Hl | Hl]; [| reflexivity].
  destruct (Rltb_spec P0 Pu) as [Hu | Hu]; [| reflexivity]. cbn.
  destruct (Rleb_spec initial_usd 0) as [Hv | Hv]; [reflexivity |].
  unfold py_sqrt at 1; cbn.
  destruct (Rltb_spec P0 0) as [HP0 | HP0]; [reflexivity |]. cbn.
  unfold py_sqrt at 1; cbn.
  destruct (Rltb_spec Pl 0) as [HPl | HPl]; [reflexivity |]. cbn.
  assert (Hc : 0 < sqrt Pu) by (apply sqrt_pos; lra).
  pose proof (value_per_L_pos P0 Pl Pu).
  rewrite py_sqrt_nonneg by lra; cbn.
  rewrite py_div_nonzero by lra; cbn.
  rewrite Rleb_false by lra.
  apply py_div_nonzero. lra.
Qed.

(** Likewise for [calc_usdt_for_eth_in_pool]: neither of its two "anomaly"
    checks fires. *)
Lemma calc_usdt_for_eth_in_pool_cases (price lower upper eth_in_pool : R) :
  calc_usdt_for_eth_in_pool price lower upper eth_in_pool =
    if Rleb eth_in_pool 0 then inl (ValueError EthInPoolMustBePositive)
    else if negb (Rltb lower price && Rltb price upper) then
      inl (ValueError NeedLowerLtPriceLtUpper)
    else if Rltb price 0 || Rltb lower 0 then
      inl (ValueError MathDomainError)
    else inr (eth_in_pool / (1 / sqrt price - 1 / sqrt upper)
              * (sqrt price - sqrt lower)).
Proof.
  unfold calc_usdt_for_eth_in_pool; cbn.
  destruct (Rleb_spec eth_in_pool 0) as [He | He]; [reflexivity |].
  destruct (Rltb_spec lower price) as [Hl | Hl]; [| reflexivity].
  destruct (Rltb_spec price upper) as [Hu | Hu]; [| reflexivity]. cbn.
  unfold py_sqrt at 1; cbn.
  destruct (Rltb_spec price 0) as [Hp | Hp]; [reflexivity |]. cbn.
  unfold py_sqrt at 1; cbn.
  destruct (Rltb_spec lower 0) as [Hlo | Hlo]; [reflexivity |]. cbn.
  assert (Hb : 0 < sqrt price) by (apply sqrt_pos; lra).
  assert (Hc : 0 < sqrt upper) by (apply sqrt_pos; lra).
  assert (Hab : sqrt lower < sqrt price) by (apply sqrt_lt; lra).
  pose proof (delta_sqrt_inv_pos price upper).
  rewrite py_sqrt_nonneg by lra; cbn.
  rewrite !py_div_nonzero by lra; cbn.
  rewrite Rleb_false by lra.
  rewrite py_div_nonzero by lra; cbn.
  rewrite Rltb_false by lra.
  reflexivity.
Qed.

Lemma L_from_initial_usd_valid (P0 Pl Pu initial_usd : R) :
  0 <= Pl -> Pl < P0 -> P0 < Pu -> 0 < initial_usd ->
  L_from_initial_usd P0 Pl Pu initial_usd =
    inr (initial_usd / (2 * sqrt P0 - P0 / sqrt Pu - sqrt Pl)).
Proof.
  intros HPl Hl Hu Hv. rewrite L_from_initial_usd_cases.
  rewrite !Rltb_true, Rleb_false, !Rltb_false by lra. reflexivity.
Qed.

Lemma calc_usdt_for_eth_in_pool_valid (price lower upper eth_in_pool : R) :
  0 <= lower -> lower < price -> price < upper -> 0 < eth_in_pool ->
  calc_usdt_for_eth_in_pool price lower upper eth_in_pool =
    inr (eth_in_pool / (1 / sqrt price - 1 / sqrt upper)
         * (sqrt price - sqrt lower)).
Proof.
  intros Hlo Hl Hu He. rewrite calc_usdt_for_eth_in_pool_cases.
  rewrite Rleb_false, !Rltb_true, !Rltb_false by lra. reflexivity.
Qed.



End Sizing.

(** ** Round trip of the value-fixing sizing *)

Section RoundTrip.
Local Open Scope R_scope.

Lemma lp_value_in_range (P Pl Pu L : R) :
  0 < Pl -> Pl < P -> P < Pu -> 0 < L ->
  lp_value P Pl Pu L = inr (L * (2 * sqrt P - P / sqrt Pu - sqrt Pl)).
Proof.
  intros HPl Hl Hu HL. unfold lp_value.
  rewrite amounts_from_L_valid by lra.
  rewrite Rleb_false, Rltb_true by lra. cbn.
  assert (Hb : 0 < sqrt P) by (apply sqrt_pos; lra).
  assert (Hc : 0 < sqrt Pu) by (apply sqrt_pos; lra).
  assert (HP : 1 / sqrt P * P = sqrt P).
  { rewrite <- (sqrt_def P) at 2 by lra. field. lra. }
  unfold ret. f_equal.
  replace (L * (1 / sqrt P - 1 / sqrt Pu) * P)
    with (L * (1 / sqrt P * P - P / sqrt Pu)) by (field; lra).
  rewrite HP. ring.
Qed.

#[local] Set Warnings "-inexact-float".

(** C5. Sizing by value and then valuing at the same price gives the target
    value back: exactly over the reals, and within 1e-6 on binary64 floats
    for Pl = 1800, Pu = 2200, P0 = 2000, target 100000. *)
Theorem L_from_initial_usd_round_trip :
  (forall P0 Pl Pu initial_usd : R,
      0 < Pl -> Pl < P0 -> P0 < Pu -> 0 < initial_usd ->
      exists L,
        L_from_initial_usd P0 Pl Pu initial_usd = inr L
        /\ lp_value P0 Pl Pu L = inr initial_usd)
  /\ (exists L value_at_P0 : float,
        L_from_initial_usd 2000%float 1800%float 2200%float 100000%float
          = inr L
        /\ lp_value 2000%float 1800%float 2200%float L = inr value_at_P0
        /\ PrimFloat.ltb
             (PrimFloat.abs (PrimFloat.sub value_at_P0 100000%float))
             1e-6%float = true).
Proof.
  split.
  - intros P0 Pl Pu v HPl Hl Hu Hv.
    pose proof (value_per_L_pos P0 Pl Pu (Rlt_le _ _ HPl) Hl Hu) as Hpos.
    rewrite L_from_initial_usd_valid by lra.
    eexists; split; [reflexivity |].
    rewrite lp_value_in_range;
      [| assumption | assumption | assumption
       | apply Rdiv_lt_0_compat; assumption].
    unfold ret. f_equal.
    unfold Rdiv at 1. rewrite Rmult_assoc, Rinv_l by lra. apply Rmult_1_r.
  - eexists; eexists. split; [vm_compute; reflexivity |].
    split; vm_compute; reflexivity.
Qed.

Lemma L_from_initial_usd_round_trip_witness :
  exists L : R,
    L_from_initial_usd 2000 1800 2200 100000 = inr L
    /\ lp_value 2000 1800 2200 L = inr 100000.
Proof.
  apply (proj1 L_from_initial_usd_round_trip); lra.
Defined.

End RoundTrip.

(** ** Monotonicity of the primary-asset-fixing sizing *)

Section Monotonicity.
Local Open Scope R_scope.

Lemma div_lt_denom (e d1 d2 : R) :
  0 < e -> 0 < d2 -> d2 < d1 -> 0 < e / d1 < e / d2.
Proof.
  intros He Hd2 Hd. unfold Rdiv.
  assert (H1 : 0 < / d1) by (apply Rinv_0_lt_compat; lra).
  assert (H2 : / d1 < / d2) by (apply Rinv_lt_contravar; [nra | assumption]).
  nra.
Qed.

(** C6. In exact real arithmetic: with the other arguments fixed, a positive
    primary amount and 0 <= lower < price < upper, the complementary amount
    [calc_usdt_for_eth_in_pool] returns is strictly increasing in price,
    strictly decreasing in upper, and strictly larger for a smaller lower.
    On binary64 the strictness is lost between adjacent floats (section
    Binary64Rounding). *)
Theorem calc_usdt_for_eth_in_pool_monotone :
  (forall lower upper eth_in_pool p1 p2 : R,
      0 <= lower -> 0 < eth_in_pool ->
      lower < p1 -> p1 < p2 -> p2 < upper ->
      exists y1 y2,
        calc_usdt_for_eth_in_pool p1 lower upper eth_in_pool = inr y1
        /\ calc_usdt_for_eth_in_pool p2 lower upper eth_in_pool = inr y2
        /\ y1 < y2)
  /\ (forall price lower eth_in_pool u1 u2 : R,
      0 <= lower -> 0 < eth_in_pool ->
      lower < price -> price < u1 -> u1 < u2 ->
      exists y1 y2,
        calc_usdt_for_eth_in_pool price lower u1 eth_in_pool = inr y1
        /\ calc_usdt_for_eth_in_pool price lower u2 eth_in_pool = inr y2
        /\ y2 < y1)
  /\ (forall price upper eth_in_pool l1 l2 : R,
      0 <= l2 -> 0 < eth_in_pool ->
      l2 < l1 -> l1 < price -> price < upper ->
      exists y1 y2,
        calc_usdt_for_eth_in_pool price l1 upper eth_in_pool = inr y1
        /\ calc_usdt_for_eth_in_pool price l2 upper eth_in_pool = inr y2
        /\ y1 < y2).
Proof.
  split; [| split].
  - intros lower upper e p1 p2 Hlo He H1 H12 H2.
    rewrite !calc_usdt_for_eth_in_pool_valid by lra.
    do 2 eexists; split; [reflexivity | split; [reflexivity |]].
    assert (Hd2 : 0 < 1 / sqrt p2 - 1 / sqrt upper)
      by (apply delta_sqrt_inv_pos; lra).
    assert (Hinv : 1 / sqrt p2 < 1 / sqrt p1)
      by (apply inv_sqrt_lt; lra).
    assert (Hn1 : sqrt lower < sqrt p1) by (apply sqrt_lt; lra).
    assert (Hn2 : sqrt p1 < sqrt p2) by (apply sqrt_lt; lra).
    pose proof (div_lt_denom e (1 / sqrt p1 - 1 / sqrt upper)
                  (1 / sqrt p2 - 1 / sqrt upper) He Hd2) as Hq.
    assert (Hq' := Hq ltac:(lra)). clear Hq.
    set (A1 := e / (1 / sqrt p1 - 1 / sqrt upper)) in *.
    set (A2 := e / (1 / sqrt p2 - 1 / sqrt upper)) in *.
    nra.
  - intros price lower e u1 u2 Hlo He Hl Hu1 H12.
    rewrite !calc_usdt_for_eth_in_pool_valid by lra.
    do 2 eexists; split; [reflexivity | split; [reflexivity |]].
    assert (Hd1 : 0 < 1 / sqrt price - 1 / sqrt u1)
      by (apply delta_sqrt_inv_pos; lra).
    assert (Hinv : 1 / sqrt u2 < 1 / sqrt u1)
      by (apply inv_sqrt_lt; lra).
    assert (Hn : sqrt lower < sqrt price) by (apply sqrt_lt; lra).
    pose proof (div_lt_denom e (1 / sqrt price - 1 / sqrt u2)
                  (1 / sqrt price - 1 / sqrt u1) He Hd1) as Hq.
    assert (Hq' := Hq ltac:(lra)). clear Hq.
    set (A1 := e / (1 / sqrt price - 1 / sqrt u1)) in *.
    set (A2 := e / (1 / sqrt price - 1 / sqrt u2)) in *.
    nra.
  - intros price upper e l1 l2 Hlo He H21 Hl Hu.
    rewrite !calc_usdt_for_eth_in_pool_valid by lra.
    do 2 eexists; split; [reflexivity | split; [reflexivity |]].
    assert (Hd : 0 < 1 / sqrt price - 1 / sqrt upper)
      by (apply delta_sqrt_inv_pos; lra).
    assert (Hn : sqrt l2 < sqrt l1) by (apply sqrt_lt; lra).
    assert (HA : 0 < e / (1 / sqrt price - 1 / sqrt upper))
      by (apply Rdiv_lt_0_compat; assumption).
    set (A := e / (1 / sqrt price - 1 / sqrt upper)) in *.
    nra.
Qed.

Lemma calc_usdt_for_eth_in_pool_monotone_witness :
  (exists y1 y2,
      calc_usdt_for_eth_in_pool 3150 2651 3498 1 = inr y1
      /\ calc_usdt_for_eth_in_pool 3200 2651 3498 1 = inr y2
      /\ y1 < y2)
  /\ (exists y1 y2,
      calc_usdt_for_eth_in_pool 3150 2651 3498 1 = inr y1
      /\ calc_usdt_for_eth_in_pool 3150 2651 3600 1 = inr y2
      /\ y2 < y1)
  /\ (exists y1 y2,
      calc_usdt_for_eth_in_pool 3150 2651 3498 1 = inr y1
      /\ calc_usdt_for_eth_in_pool 3150 2500 3498 1 = inr y2
      /\ y1 < y2).
Proof.
  destruct calc_usdt_for_eth_in_pool_monotone as (Hprice & Hupper & Hlower).
  split; [apply Hprice; lra |].
  split; [apply Hupper; lra | apply Hlower; lra].
Defined.

End Monotonicity.

(** ** Ranges of the two functions the loop calls *)

Section Ranges.
Local Open Scope R_scope.

(** [amounts_from_L] returns only on valid inputs. *)
Lemma amounts_from_L_inr (P Pl Pu L x y : R) :
  amounts_from_L P Pl Pu L = inr (x, y) ->
  0 < P /\ 0 < Pl /\ Pl < Pu /\ 0 < L.
Proof.
  unfold amounts_from_L; cbn.
  destruct (Rleb_spec P 0); [discriminate |].
  destruct (Rleb_spec Pl 0); [discriminate |].
  destruct (Rleb_spec Pu 0); [discriminate |]. cbn.
  destruct (Rleb_spec L 0); [discriminate |].
  destruct (Rleb_spec Pu Pl); [discriminate |].
  intros _. lra.
Qed.

Lemma amounts_from_L_total (P Pl Pu L : R) :
  0 < P -> 0 < Pl -> Pl < Pu -> 0 < L ->
  exists x y, amounts_from_L P Pl Pu L = inr (x, y).
Proof.
  intros HP HPl Hlu HL. rewrite amounts_from_L_valid by assumption.
  destruct (Rleb P Pl); [| destruct (Rltb P Pu)]; eauto.
Qed.

(** Both amounts are non-negative whenever [amounts_from_L] returns. *)
Lemma amounts_from_L_nonneg (P Pl Pu L x y : R) :
  amounts_from_L P Pl Pu L = inr (x, y) -> 0 <= x /\ 0 <= y.
Proof.
  intros Hxy. destruct (amounts_from_L_inr _ _ _ _ _ _ Hxy) as (HP & HPl & Hlu & HL).
  rewrite amounts_from_L_valid in Hxy by assumption.
  pose proof (inv_sqrt_lt Pl Pu HPl Hlu) as Hi.
  pose proof (sqrt_lt Pl Pu (Rlt_le _ _ HPl) Hlu) as Hs.
  destruct (Rleb_spec P Pl) as [H1 | H1].
  - injection Hxy as <- <-. split; [nra | lra].
  - destruct (Rltb_spec P Pu) as [H2 | H2]; injection Hxy as <- <-.
    + pose proof (inv_sqrt_lt P Pu HP H2).
      pose proof (sqrt_lt Pl P (Rlt_le _ _ HPl) ltac:(lra)).
      split; nra.
    + split; [lra | nra].
Qed.

Lemma calculate_k_total (P Pl Pu k0 : R) :
  Pl < Pu -> exists k, calculate_k P Pl Pu k0 = inr k.
Proof. intros Hlu. rewrite calculate_k_valid by assumption. eauto. Qed.


End Ranges.

(** ** Two facts on the last element of a list *)

Lemma last_cons_cons {A : Type} (a b : A) (l : list A) (d : A) :
  last (a :: b :: l) d = last (b :: l) d.
Proof. reflexivity. Qed.

Lemma last_nonempty_default {A : Type} (a : A) (l : list A) (d d' : A) :
  last (a :: l) d = last (a :: l) d'.
Proof.
  revert a; induction l as [| b l IH]; intros a; [reflexivity |].
  rewrite !last_cons_cons. apply IH.
Qed.

(** ** The rebalancing loop *)

Section LoopFacts.
Local Open Scope list_scope.
Local Open Scope R_scope.
Variables (Pl Pu L hedge_k0 threshold : R).

(** Every way [rebalance_step] can return. *)
Lemma rebalance_step_inv (st st' : State.t R) (ts : timestamp) (P_now : R) :
  rebalance_step Pl Pu L hedge_k0 threshold st (ts, P_now) = inr st' ->
  State.anchor_price st <> 0
  /\ ((Rabs (P_now - State.anchor_price st) / State.anchor_price st < threshold
       /\ st' = st)
      \/ (threshold <= Rabs (P_now - State.anchor_price st) / State.anchor_price st
          /\ exists k eth_now usdt_now,
              calculate_k P_now Pl Pu hedge_k0 = inr k
              /\ amounts_from_L P_now Pl Pu L = inr (eth_now, usdt_now)
              /\ st' = rebalanced st ts P_now k eth_now)).
Proof.
  unfold rebalance_step, py_div; cbn.
  destruct (Reqb_spec (State.anchor_price st) 0) as [Ha | Ha]; cbn;
    [discriminate |].
  destruct (Rltb_spec (Rabs (P_now - State.anchor_price st)
                       / State.anchor_price st) threshold) as [Hm | Hm].
  - intros Heq; injection Heq as <-. split; [assumption |]. left; split; auto.
  - destruct (calculate_k P_now Pl Pu hedge_k0) as [e | k] eqn:Hk; cbn;
      [discriminate |].
    destruct (amounts_from_L P_now Pl Pu L) as [e | [eth_now usdt_now]] eqn:Hx;
      cbn; [discriminate |].
    intros Heq; injection Heq as <-. split; [assumption |].
    right; split; [lra |]. exists k, eth_now, usdt_now. auto.
Qed.

Lemma rebalance_step_skip (st : State.t R) (ts : timestamp) (P_now : R) :
  State.anchor_price st <> 0 ->
  Rabs (P_now - State.anchor_price st) / State.anchor_price st < threshold ->
  rebalance_step Pl Pu L hedge_k0 threshold st (ts, P_now) = inr st.
Proof.
  intros Ha Hm. unfold rebalance_step. rewrite py_div_nonzero by assumption.
  cbn. rewrite Rltb_true by assumption. reflexivity.
Qed.

Lemma rebalance_step_trigger (st : State.t R) (ts : timestamp)
    (P_now k eth_now usdt_now : R) :
  State.anchor_price st <> 0 ->
  threshold <= Rabs (P_now - State.anchor_price st) / State.anchor_price st ->
  calculate_k P_now Pl Pu hedge_k0 = inr k ->
  amounts_from_L P_now Pl Pu L = inr (eth_now, usdt_now) ->
  rebalance_step Pl Pu L hedge_k0 threshold st (ts, P_now)
  = inr (rebalanced st ts P_now k eth_now).
Proof.
  intros Ha Hm Hk Hx. unfold rebalance_step. rewrite py_div_nonzero by assumption.
  cbn. rewrite Rltb_false by assumption. rewrite Hk; cbn. rewrite Hx; cbn.
  reflexivity.
Qed.


Lemma iterate_cons (st : State.t R) (tick : timestamp * R)
    (rest : list (timestamp * R)) :
  iterate Pl Pu L hedge_k0 threshold st (tick :: rest)
  = bind (rebalance_step Pl Pu L hedge_k0 threshold st tick)
         (fun st1 => iterate Pl Pu L hedge_k0 threshold st1 rest).
Proof. reflexivity. Qed.

(** The events a scan appends are exactly the ticks of [trigger_schedule];
    each records a move of at least the threshold; the anchors chain from the
    starting anchor through the event prices to the final anchor. *)
Lemma iterate_trigger_schedule (ticks : list (timestamp * R)) :
  forall st st' : State.t R,
    iterate Pl Pu L hedge_k0 threshold st ticks = inr st' ->
    exists new : list (Event.t R),
      State.rebalance_events st' = State.rebalance_events st ++ new
      /\ map event_key new
         = trigger_schedule threshold (State.anchor_price st) ticks
      /\ Forall (fun e =>
                   Event.move e
                   = Rabs (Event.price e - Event.anchor_before e)
                     / Event.anchor_before e
                   /\ threshold <= Event.move e) new
      /\ State.anchor_price st :: map (@Event.price R) new
         = map (@Event.anchor_before R) new ++ [State.anchor_price st']
      /\ State.rebalance_count st'
         = (State.rebalance_count st + List.length new)%nat.
Proof.
  induction ticks as [| [ts P_now] rest IH]; intros st st' Hrun.
  - injection Hrun as <-. exists []. rewrite app_nil_r. cbn.
    repeat split; auto.
  - rewrite iterate_cons in Hrun.
    destruct (rebalance_step Pl Pu L hedge_k0 threshold st (ts, P_now))
      as [e | st1] eqn:Hstep; cbn in Hrun; [discriminate |].
    destruct (rebalance_step_inv st st1 ts P_now Hstep)
      as [Ha [[Hm ->] | [Hm (k & eth_now & usdt_now & Hk & Hx & ->)]]].
    + destruct (IH st st' Hrun) as (new & He & Hs & Hf & Hc & Hn).
      exists new. cbn. rewrite Rleb_false by assumption. auto.
    + destruct (IH _ st' Hrun) as (new & He & Hs & Hf & Hc & Hn).
      cbn in He, Hs, Hc, Hn.
      eexists (_ :: new).
      split; [rewrite He, <- app_assoc; reflexivity |].
      cbn. rewrite Rleb_true by assumption.
      split; [unfold event_key at 1; cbn; rewrite Hs; reflexivity |].
      split; [constructor; [cbn; split; [reflexivity | assumption] | exact Hf] |].
      split; [rewrite Hc; reflexivity | lia].
Qed.

(** The scan returns on every path of positive prices. *)
Lemma iterate_total (ticks : list (timestamp * R)) :
  0 < Pl -> Pl < Pu -> 0 < L ->
  Forall (fun r => 0 < snd r) ticks ->
  forall st : State.t R,
    0 < State.anchor_price st ->
    exists st', iterate Pl Pu L hedge_k0 threshold st ticks = inr st'.
Proof.
  intros HPl Hlu HL Hpos.
  induction Hpos as [| [ts P_now] rest HP _ IH]; intros st Ha.
  - exists st. reflexivity.
  - cbn in HP. rewrite iterate_cons.
    destruct (Rlt_dec (Rabs (P_now - State.anchor_price st)
                       / State.anchor_price st) threshold) as [Hm | Hm].
    + rewrite rebalance_step_skip by (assumption || lra). cbn.
      apply IH. assumption.
    + destruct (calculate_k_total P_now Pl Pu hedge_k0 Hlu) as [k Hk].
      destruct (amounts_from_L_total P_now Pl Pu L HP HPl Hlu HL)
        as (eth_now & usdt_now & Hx).
      rewrite (rebalance_step_trigger st ts P_now k eth_now usdt_now)
        by (assumption || lra).
      cbn. apply IH. cbn. assumption.
Qed.


(** After the scan, cash and position are those of the last appended event,
    or unchanged when no tick triggered. *)
Lemma iterate_last_event (ticks : list (timestamp * R)) :
  forall st st' : State.t R,
    iterate Pl Pu L hedge_k0 threshold st ticks = inr st' ->
    exists new : list (Event.t R),
      State.rebalance_events st' = State.rebalance_events st ++ new
      /\ State.cash st' = last (map (@Event.cash R) new) (State.cash st)
      /\ State.current_H st'
         = last (map (@Event.H_target R) new) (State.current_H st).
Proof.
  induction ticks as [| [ts P_now] rest IH]; intros st st' Hrun.
  - injection Hrun as <-. exists []. rewrite app_nil_r. auto.
  - rewrite iterate_cons in Hrun.
    destruct (rebalance_step Pl Pu L hedge_k0 threshold st (ts, P_now))
      as [e | st1] eqn:Hstep; cbn in Hrun; [discriminate |].
    destruct (rebalance_step_inv st st1 ts P_now Hstep)
      as [Ha [[Hm ->] | [Hm (k & eth_now & usdt_now & Hk & Hx & ->)]]].
    + apply (IH st st' Hrun).
    + destruct (IH _ st' Hrun) as (new & He & Hc & Hh).
      cbn in He, Hc, Hh.
      eexists (_ :: new).
      split; [rewrite He, <- app_assoc; reflexivity |].
      rewrite Hc, Hh.
      split; destruct new as [| e' new']; try reflexivity;
        cbn [map]; rewrite last_cons_cons; apply last_nonempty_default.
Qed.

(** The events a scan appends keep the books of [accounting_chain]. *)
Lemma iterate_accounting (ticks : list (timestamp * R)) :
  forall st st' : State.t R,
    iterate Pl Pu L hedge_k0 threshold st ticks = inr st' ->
    exists new : list (Event.t R),
      State.rebalance_events st' = State.rebalance_events st ++ new
      /\ accounting_chain Pl Pu L hedge_k0 (State.current_H st)
           (State.cash st) new.
Proof.
  induction ticks as [| [ts P_now] rest IH]; intros st st' Hrun.
  - injection Hrun as <-. exists []. rewrite app_nil_r. cbn. auto.
  - rewrite iterate_cons in Hrun.
    destruct (rebalance_step Pl Pu L hedge_k0 threshold st (ts, P_now))
      as [e | st1] eqn:Hstep; cbn in Hrun; [discriminate |].
    destruct (rebalance_step_inv st st1 ts P_now Hstep)
      as [Ha [[Hm ->] | [Hm (k & eth_now & usdt_now & Hk & Hx & ->)]]].
    + apply (IH st st' Hrun).
    + destruct (IH _ st' Hrun) as (new & He & Hchain).
      cbn in He, Hchain.
      eexists (_ :: new).
      split; [rewrite He, <- app_assoc; reflexivity |].
      cbn. repeat split; eauto.
Qed.

End LoopFacts.

(** ** A whole run *)

Section RunFacts.
Local Open Scope list_scope.
Local Open Scope R_scope.

Lemma calc_usdt_for_eth_in_pool_inr (price lower upper eth_in_pool y : R) :
  calc_usdt_for_eth_in_pool price lower upper eth_in_pool = inr y ->
  0 < eth_in_pool /\ 0 <= lower /\ lower < price /\ price < upper.
Proof.
  rewrite calc_usdt_for_eth_in_pool_cases.
  destruct (Rleb_spec eth_in_pool 0); [discriminate |].
  destruct (Rltb_spec lower price); [| discriminate].
  destruct (Rltb_spec price upper); [| discriminate]. cbn.
  destruct (Rltb_spec price 0); [discriminate |].
  destruct (Rltb_spec lower 0); [discriminate |].
  intros _. lra.
Qed.

Lemma lp_value_total (P Pl Pu L : R) :
  0 < P -> 0 < Pl -> Pl < Pu -> 0 < L -> exists v, lp_value P Pl Pu L = inr v.
Proof.
  intros HP HPl Hlu HL.
  destruct (amounts_from_L_total P Pl Pu L HP HPl Hlu HL) as (x & y & Hxy).
  unfold lp_value. rewrite Hxy. cbn. eauto.
Qed.

(** Every way [run_backtest] can return: the window has a first point and at
    least one more, the sizing and both valuations succeed, the scan returns a
    final state, and the output is assembled from these. *)
Lemma run_backtest_inv (cfg : Config.t R)
    (files : string -> result (list (timestamp * R)))
    (csv_file : option string) (start_ts end_ts : option timestamp)
    (oPl oPu oeth ok0 oth : option R) (out : Output.t R) :
  run_backtest cfg files csv_file start_ts end_ts oPl oPu oeth ok0 oth
  = inr out ->
  let Pl := if_not_None oPl (Config.PL cfg) in
  let Pu := if_not_None oPu (Config.PU cfg) in
  let eth_in_pool := if_not_None oeth (Config.ETH_IN_POOL cfg) in
  let hedge_k0 := if_not_None ok0 (Config.HEDGE_K0 cfg) in
  let threshold := if_not_None oth (Config.THRESHOLD cfg) in
  exists data_all first rest st initial_usdt lp_value_start lp_value_end,
    let P0 := resolve_P0 cfg first in
    let L := eth_in_pool / (1 / sqrt P0 - 1 / sqrt Pu) in
    let final_price := snd (last rest first) in
    let hedge_pnl := State.cash st + State.current_H st * final_price in
    load_eth_1h_csv files (str_or csv_file (Config.CSV_FILE cfg))
    = inr data_all
    /\ filter_period data_all (if_not_None start_ts (Config.START_TS cfg))
         (if_not_None end_ts (Config.END_TS cfg)) = first :: rest
    /\ rest <> []
    /\ calc_usdt_for_eth_in_pool P0 Pl Pu eth_in_pool = inr initial_usdt
    /\ lp_value P0 Pl Pu L = inr lp_value_start
    /\ iterate Pl Pu L hedge_k0 threshold
         (State.mk (- (eth_in_pool * hedge_k0))
                   (0 + eth_in_pool * hedge_k0 * P0) P0 [] 0%nat 0) rest
       = inr st
    /\ lp_value final_price Pl Pu L = inr lp_value_end
    /\ out = Output.mk (State.rebalance_events st)
               (Summary.mk (State.rebalance_count st)
                  (State.cumulative_abs_delta_h st)
                  hedge_pnl (lp_value_end - lp_value_start)
                  (lp_value_end - lp_value_start + hedge_pnl)
                  final_price lp_value_start lp_value_end
                  (State.current_H st) P0 Pl Pu L eth_in_pool initial_usdt
                  threshold hedge_k0).
Proof.
  intros Hrun Pl Pu eth_in_pool hedge_k0 threshold.
  unfold run_backtest in Hrun.
  destruct (load_eth_1h_csv files _) as [e | data_all] eqn:Hload;
    [discriminate |].
  cbn [bind] in Hrun.
  destruct (filter_period data_all _ _) as [| first rest] eqn:Hwin;
    [discriminate |].
  destruct rest as [| second rest']; [discriminate |].
  fold (resolve_P0 cfg first) in Hrun.
  fold Pl Pu eth_in_pool hedge_k0 threshold in Hrun.
  set (P0 := resolve_P0 cfg first) in *.
  destruct (calc_usdt_for_eth_in_pool P0 Pl Pu eth_in_pool)
    as [e | initial_usdt] eqn:Hcalc; [discriminate |].
  destruct (calc_usdt_for_eth_in_pool_inr _ _ _ _ _ Hcalc)
    as (He & HPl & Hl & Hu).
  pose proof (delta_sqrt_inv_pos P0 Pu ltac:(lra) Hu) as Hden.
  cbn [bind] in Hrun.
  rewrite !py_sqrt_nonneg in Hrun by lra. cbn [bind] in Hrun.
  assert (Hb : 0 < sqrt P0) by (apply sqrt_pos; lra).
  assert (Hc : 0 < sqrt Pu) by (apply sqrt_pos; lra).
  rewrite !py_div_nonzero in Hrun by (cbn; lra). cbn [bind] in Hrun.
  cbn [fleb fsub f0 f1 RFloat] in Hrun.
  rewrite Rleb_false in Hrun by assumption.
  rewrite py_div_nonzero in Hrun by lra. cbn [bind] in Hrun.
  set (L := eth_in_pool / (1 / sqrt P0 - 1 / sqrt Pu)) in *.
  destruct (amounts_from_L P0 Pl Pu L) as [e | [eth0 usdt0]] eqn:Hx0;
    [discriminate |].
  cbn [bind] in Hrun.
  destruct (lp_value P0 Pl Pu L) as [e | lp_value_start] eqn:Hv0;
    [discriminate |].
  cbn [bind] in Hrun.
  destruct (iterate Pl Pu L hedge_k0 threshold _ (second :: rest'))
    as [e | st] eqn:Hit; [discriminate |].
  cbn [bind] in Hrun.
  destruct (lp_value (snd (last (second :: rest') first)) Pl Pu L)
    as [e | lp_value_end] eqn:Hv1;
    [discriminate |].
  cbn [bind] in Hrun.
  unfold ret in Hrun. injection Hrun as <-.
  exists data_all, first, (second :: rest'), st, initial_usdt,
    lp_value_start, lp_value_end.
  cbn zeta. fold P0. fold L.
  repeat split; try assumption; try discriminate.
Qed.

Lemma Forall_last {A : Type} (P : A -> Prop) (a : A) (l : list A) (d : A) :
  Forall P (a :: l) -> P (last (a :: l) d).
Proof.
  revert a; induction l as [| b l IH]; intros a Hall.
  - inversion Hall; assumption.
  - rewrite last_cons_cons. apply IH. inversion Hall; assumption.
Qed.

(** A run returns whenever the window holds at least two points, the initial
    price is strictly inside a range of positive prices, the primary amount
    is positive and the prices after the first are positive. *)
Lemma run_backtest_completes (cfg : Config.t R)
    (files : string -> result (list (timestamp * R)))
    (csv_file : option string) (start_ts end_ts : option timestamp)
    (oPl oPu oeth ok0 oth : option R)
    (data_all : list (timestamp * R)) (first second : timestamp * R)
    (rest : list (timestamp * R)) :
  load_eth_1h_csv files (str_or csv_file (Config.CSV_FILE cfg)) = inr data_all ->
  filter_period data_all (if_not_None start_ts (Config.START_TS cfg))
    (if_not_None end_ts (Config.END_TS cfg)) = first :: second :: rest ->
  0 < if_not_None oPl (Config.PL cfg) ->
  if_not_None oPl (Config.PL cfg) < resolve_P0 cfg first ->
  resolve_P0 cfg first < if_not_None oPu (Config.PU cfg) ->
  0 < if_not_None oeth (Config.ETH_IN_POOL cfg) ->
  Forall (fun r => 0 < snd r) (second :: rest) ->
  exists out,
    run_backtest cfg files csv_file start_ts end_ts oPl oPu oeth ok0 oth
    = inr out.
Proof.
  intros Hload Hwin HPl Hl Hu He Hpos.
  unfold run_backtest. rewrite Hload. cbn [bind]. rewrite Hwin.
  fold (resolve_P0 cfg first).
  set (P0 := resolve_P0 cfg first) in *.
  set (Pl := if_not_None oPl (Config.PL cfg)) in *.
  set (Pu := if_not_None oPu (Config.PU cfg)) in *.
  set (eth_in_pool := if_not_None oeth (Config.ETH_IN_POOL cfg)) in *.
  rewrite calc_usdt_for_eth_in_pool_valid by lra. cbn [bind].
  pose proof (delta_sqrt_inv_pos P0 Pu ltac:(lra) Hu) as Hden.
  assert (Hb : 0 < sqrt P0) by (apply sqrt_pos; lra).
  assert (Hc : 0 < sqrt Pu) by (apply sqrt_pos; lra).
  rewrite !py_sqrt_nonneg by lra. cbn [bind].
  rewrite !py_div_nonzero by (cbn; lra). cbn [bind].
  cbn [fleb fsub f0 f1 RFloat].
  rewrite Rleb_false by assumption.
  rewrite py_div_nonzero by lra. cbn [bind].
  set (L := eth_in_pool / (1 / sqrt P0 - 1 / sqrt Pu)).
  assert (HL : 0 < L) by (apply Rdiv_lt_0_compat; assumption).
  destruct (amounts_from_L_total P0 Pl Pu L) as (eth0 & usdt0 & Hx0); try lra.
  rewrite Hx0. cbn [bind].
  destruct (lp_value_total P0 Pl Pu L) as (v0 & Hv0); try lra.
  rewrite Hv0. cbn [bind].
  match goal with
  | |- context [iterate Pl Pu L ?k0 ?th ?st0 (second :: rest)] =>
      destruct (iterate_total Pl Pu L k0 th (second :: rest)
                  HPl ltac:(lra) HL Hpos st0 ltac:(cbn; lra)) as [st Hit];
      rewrite Hit
  end.
  cbn [bind].
  match goal with
  | |- context [lp_value ?p Pl Pu L] =>
      destruct (lp_value_total p Pl Pu L) as (v1 & Hv1); try lra;
      [apply (Forall_last (fun r => 0 < snd r)); assumption | rewrite Hv1]
  end.
  cbn [bind]. eexists. reflexivity.
Qed.

(** The sample file, loaded and cut to the configured window. *)
Lemma sample_window :
  load_eth_1h_csv sample_files "eth_1h.csv" = inr sample_rows
  /\ filter_period sample_rows 1762473600%Z 1767657600%Z = sample_rows.
Proof. split; reflexivity. Qed.

Lemma sample_rows_positive :
  Forall (fun r : timestamp * R => 0 < snd r) (tl sample_rows).
Proof. repeat constructor; cbn; lra. Qed.

(** The frozen configuration runs to completion on the sample file. *)
Lemma frozen_run_completes :
  exists out,
    run_backtest frozen_config sample_files None None None None None None
      None None = inr out.
Proof.
  destruct sample_window as [Hload Hwin].
  eapply run_backtest_completes.
  - exact Hload.
  - exact Hwin.
  - cbn; lra.
  - cbn; lra.
  - cbn; lra.
  - cbn; lra.
  - exact sample_rows_positive.
Qed.

(** So does a fixed initial price inside the range, all arguments given. *)
Lemma fixed_run_completes (P0 : R) :
  2651 < P0 < 3498 ->
  exists out,
    run_backtest (fixed_config P0) sample_files (Some "eth_1h.csv"%string)
      (Some 1762473600%Z) (Some 1767657600%Z) (Some 2651) (Some 3498)
      (Some 1) (Some (7 / 10)) (Some (5 / 100)) = inr out.
Proof.
  intros HP0. destruct sample_window as [Hload Hwin].
  eapply run_backtest_completes.
  - exact Hload.
  - exact Hwin.
  - cbn; lra.
  - cbn; lra.
  - cbn; lra.
  - cbn; lra.
  - exact sample_rows_positive.
Qed.

End RunFacts.

(** ** The trigger rule and the anchor *)

Section TriggerRule.
Local Open Scope list_scope.
Local Open Scope R_scope.






End TriggerRule.

(** ** The summary of a completed run *)

Section SummaryFacts.
Local Open Scope list_scope.
Local Open Scope R_scope.





End SummaryFacts.

(** ** What a run reads from the ambient config module *)

Section AmbientConfig.
Local Open Scope R_scope.

(** The summary echoes the initial price the run resolved. *)
Lemma run_backtest_P0 (cfg : Config.t R)
    (files : string -> result (list (timestamp * R)))
    (csv_file : option string) (start_ts end_ts : option timestamp)
    (oPl oPu oeth ok0 oth : option R) (out : Output.t R) :
  run_backtest cfg files csv_file start_ts end_ts oPl oPu oeth ok0 oth
  = inr out ->
  exists first, Summary.P0 (Output.summary out) = resolve_P0 cfg first.
Proof.
  intros Hrun.
  destruct (run_backtest_inv cfg files csv_file start_ts end_ts
              oPl oPu oeth ok0 oth out Hrun)
    as (data_all & first & rest & st & iu & v0 & v1
        & _ & _ & _ & _ & _ & _ & _ & ->).
  exists first. reflexivity.
Qed.

(** Two calls with the same explicit arguments on the same file, under
    config modules that differ only in [P0], return different results. *)
Lemma run_backtest_reads_config_P0 :
  run_backtest (fixed_config 3150) sample_files (Some "eth_1h.csv"%string)
    (Some 1762473600%Z) (Some 1767657600%Z) (Some 2651) (Some 3498)
    (Some 1) (Some (7 / 10)) (Some (5 / 100))
  <> run_backtest (fixed_config 3000) sample_files (Some "eth_1h.csv"%string)
       (Some 1762473600%Z) (Some 1767657600%Z) (Some 2651) (Some 3498)
       (Some 1) (Some (7 / 10)) (Some (5 / 100)).
Proof.
  destruct (fixed_run_completes 3150 ltac:(lra)) as [out1 Hout1].
  destruct (fixed_run_completes 3000 ltac:(lra)) as [out2 Hout2].
  rewrite Hout1, Hout2. intros Heq. injection Heq as ->.
  destruct (run_backtest_P0 _ _ _ _ _ _ _ _ _ _ _ Hout1) as [first1 HP1].
  destruct (run_backtest_P0 _ _ _ _ _ _ _ _ _ _ _ Hout2) as [first2 HP2].
  rewrite HP1 in HP2. cbn in HP2. lra.
Qed.

End AmbientConfig.

Section ExplicitArguments.
Context {F : Type} `{PyFloat F}.

(** C7, amended. When every argument of [run_backtest] is given (the file
    name non-empty), the result depends on the ambient config module only
    through its initial-price policy: two config modules with the same
    [P0_MODE] decision and, unless it is "from_data", the same [P0], give the
    same result, whatever their other settings. *)
Theorem run_backtest_explicit_arguments (cfg1 cfg2 : Config.t F)
    (files : string -> result (list (timestamp * F)))
    (csv_file : string) (start_ts end_ts : timestamp)
    (Pl Pu eth_in_pool hedge_k0 threshold : F) :
  csv_file <> EmptyString ->
  from_data_mode cfg1 = from_data_mode cfg2 ->
  (from_data_mode cfg1 = false -> Config.P0 cfg1 = Config.P0 cfg2) ->
  run_backtest cfg1 files (Some csv_file) (Some start_ts) (Some end_ts)
    (Some Pl) (Some Pu) (Some eth_in_pool) (Some hedge_k0) (Some threshold)
  = run_backtest cfg2 files (Some csv_file) (Some start_ts) (Some end_ts)
      (Some Pl) (Some Pu) (Some eth_in_pool) (Some hedge_k0) (Some threshold).
Proof.
  intros Hcsv Hmode HP0.
  unfold run_backtest. cbn [if_not_None str_or].
  destruct (String.eqb_spec csv_file EmptyString) as [Heq | _];
    [contradiction |].
  destruct (load_eth_1h_csv files csv_file) as [e | data_all];
    [reflexivity |].
  cbn [bind].
  destruct (filter_period data_all start_ts end_ts) as [| first rest];
    [reflexivity |].
  destruct rest as [| second rest']; [reflexivity |].
  fold (from_data_mode cfg1). fold (from_data_mode cfg2).
  assert (Hres : (if from_data_mode cfg1 then snd first else Config.P0 cfg1)
                 = (if from_data_mode cfg2 then snd first
                    else Config.P0 cfg2)).
  { rewrite <- Hmode. destruct (from_data_mode cfg1);
      [reflexivity | apply HP0; reflexivity]. }
  rewrite Hres. reflexivity.
Qed.

End ExplicitArguments.

Lemma run_backtest_explicit_arguments_witness :
  run_backtest frozen_config sample_files (Some "eth_1h.csv"%string)
    (Some 1762473600%Z) (Some 1767657600%Z) (Some 2651%R) (Some 3498%R)
    (Some 1%R) (Some (7 / 10)%R) (Some (5 / 100)%R)
  = run_backtest unrelated_config sample_files (Some "eth_1h.csv"%string)
      (Some 1762473600%Z) (Some 1767657600%Z) (Some 2651%R) (Some 3498%R)
      (Some 1%R) (Some (7 / 10)%R) (Some (5 / 100)%R).
Proof.
  apply run_backtest_explicit_arguments.
  - discriminate.
  - reflexivity.
  - intros Hmode. discriminate Hmode.
Defined.

(** ** The binary64 instance, run *)

(** On the sample file the frozen configuration rebalances once, at 3060
    (5.5% above the opening 2900; 3200 is 4.6% above 3060). *)
Example frozen_run_binary64 :
  digest64 (run_backtest frozen_config64 sample_files64 None None None None
              None None None None)
  = Some ([3060%float], 1%nat, true).
Proof. vm_compute. reflexivity. Qed.

(** ** Where binary64 rounding departs from exact arithmetic *)

Section Binary64Rounding.
Local Open Scope float_scope.
#[local] Set Warnings "-inexact-float".



(** C6, on binary64: moving the price or the upper bound up, or the lower
    bound down, by one unit in the last place leaves the complementary
    amount where it was. *)
Lemma calc_usdt_for_eth_in_pool_flat_on_binary64 :
  calc_usdt_for_eth_in_pool 3150 2651 3498 1 = inr 5098.4064387356075
  /\ PrimFloat.ltb 3150 (PrimFloat.next_up 3150) = true
  /\ calc_usdt_for_eth_in_pool (PrimFloat.next_up 3150) 2651 3498 1
     = inr 5098.4064387356075
  /\ PrimFloat.ltb 3498 (PrimFloat.next_up 3498) = true
  /\ calc_usdt_for_eth_in_pool 3150 2651 (PrimFloat.next_up 3498) 1
     = inr 5098.4064387356075
  /\ PrimFloat.ltb (PrimFloat.next_down 2651) 2651 = true
  /\ calc_usdt_for_eth_in_pool 3150 (PrimFloat.next_down 2651) 3498 1
     = inr 5098.4064387356075.
Proof. vm_compute. repeat split. Qed.


End Binary64Rounding.

(** * Further properties of the code *)

(** ** The position class *)

Section PositionClass.
Local Open Scope R_scope.

Lemma LPPosition_init_valid (L Pl Pu : R) :
  0 < L -> 0 < Pl -> Pl < Pu ->
  LPPosition.init L Pl Pu = inr (LPPosition.mk L Pl Pu (sqrt Pl) (sqrt Pu)).
Proof.
  intros HL HPl Hlu. unfold LPPosition.init; cbn.
  rewrite !Rleb_false by lra. cbn.
  rewrite !py_sqrt_nonneg by lra. reflexivity.
Qed.

Lemma LPPosition_init_inr (L Pl Pu : R) (pos : LPPosition.t R) :
  LPPosition.init L Pl Pu = inr pos ->
  0 < L /\ 0 < Pl /\ Pl < Pu
  /\ pos = LPPosition.mk L Pl Pu (sqrt Pl) (sqrt Pu).
Proof.
  intros Hinit.
  assert (Hv : 0 < L /\ 0 < Pl /\ Pl < Pu).
  { revert Hinit. unfold LPPosition.init; cbn.
    destruct (Rleb_spec L 0); [discriminate |].
    destruct (Rleb_spec Pl 0); [discriminate |].
    destruct (Rleb_spec Pu 0); [discriminate |]. cbn.
    destruct (Rleb_spec Pu Pl); [discriminate |].
    intros _. lra. }
  destruct Hv as (HL & HPl & Hlu).
  rewrite LPPosition_init_valid in Hinit by assumption.
  injection Hinit as <-. auto.
Qed.

(** X1. The constructor validates in the order liquidity, prices, range, and
    on valid arguments stores them with the two square roots; it never fails
    inside [math.sqrt]. *)
Theorem LPPosition_init_spec (L Pl Pu : R) :
  (L <= 0 -> LPPosition.init L Pl Pu = inl PositionLiquidityMustBePositive)
  /\ (0 < L -> Pl <= 0 \/ Pu <= 0 ->
      LPPosition.init L Pl Pu = inl PositionPricesMustBePositive)
  /\ (0 < L -> 0 < Pl -> 0 < Pu -> Pu <= Pl ->
      LPPosition.init L Pl Pu = inl PlowerMustBeLtPupper)
  /\ (0 < L -> 0 < Pl -> Pl < Pu ->
      LPPosition.init L Pl Pu
      = inr (LPPosition.mk L Pl Pu (sqrt Pl) (sqrt Pu)))
  /\ (forall e, LPPosition.init L Pl Pu <> inl (Raised e)).
Proof.
  split; [| split; [| split; [| split]]].
  - intros HL. unfold LPPosition.init; cbn.
    rewrite Rleb_true by assumption. reflexivity.
  - intros HL Hbad. unfold LPPosition.init; cbn.
    rewrite Rleb_false by assumption.
    destruct (Rleb_spec Pl 0); [reflexivity |].
    rewrite Rleb_true by lra. reflexivity.
  - intros HL HPl HPu Hul. unfold LPPosition.init; cbn.
    rewrite !Rleb_false by assumption. cbn.
    rewrite Rleb_true by assumption. reflexivity.
  - apply LPPosition_init_valid.
  - intros e. unfold LPPosition.init; cbn.
    destruct (Rleb_spec L 0); [discriminate |].
    destruct (Rleb_spec Pl 0); [discriminate |].
    destruct (Rleb_spec Pu 0); [discriminate |]. cbn.
    destruct (Rleb_spec Pu Pl); [discriminate |].
    rewrite !py_sqrt_nonneg by lra. discriminate.
Qed.

Lemma LPPosition_init_spec_witness :
  LPPosition.init 0 1 9 = inl PositionLiquidityMustBePositive
  /\ LPPosition.init 1 0 9 = inl PositionPricesMustBePositive
  /\ LPPosition.init 1 9 1 = inl PlowerMustBeLtPupper
  /\ LPPosition.init 1 1 9 = inr (LPPosition.mk 1 1 9 (sqrt 1) (sqrt 9)).
Proof.
  destruct (LPPosition_init_spec 0 1 9) as (Hliq & _).
  destruct (LPPosition_init_spec 1 0 9) as (_ & Hprice & _).
  destruct (LPPosition_init_spec 1 9 1) as (_ & _ & Hrange & _).
  destruct (LPPosition_init_spec 1 1 9) as (_ & _ & _ & Hok & _).
  split; [apply Hliq; lra |].
  split; [apply Hprice; lra |].
  split; [apply Hrange; lra | apply Hok; lra].
Defined.

(** X2. Class invariant: on a position the constructor returned,
    [get_amounts] and [get_value] fail only on a non-positive price, and for
    a positive price return non-negative amounts and their value
    [x * P + y]. *)
Theorem LPPosition_methods_total (L Pl Pu : R) (pos : LPPosition.t R) :
  LPPosition.init L Pl Pu = inr pos ->
  forall P : R,
    (0 < P ->
     exists x y,
       LPPosition.get_amounts pos P = inr (x, y)
       /\ 0 <= x /\ 0 <= y
       /\ LPPosition.get_value pos P = inr (x * P + y))
    /\ (P <= 0 ->
        LPPosition.get_amounts pos P
        = inl (ValueError AllPricesMustBePositive)
        /\ LPPosition.get_value pos P
           = inl (ValueError AllPricesMustBePositive)).
Proof.
  intros Hinit P.
  destruct (LPPosition_init_inr L Pl Pu pos Hinit) as (HL & HPl & Hlu & ->).
  unfold LPPosition.get_amounts, LPPosition.get_value, lp_value. cbn.
  split.
  - intros HP.
    destruct (amounts_from_L_total P Pl Pu L HP HPl Hlu HL) as (x & y & Hxy).
    destruct (amounts_from_L_nonneg P Pl Pu L x y Hxy) as [Hx Hy].
    exists x, y. rewrite Hxy. cbn. auto.
  - intros HP.
    assert (Hbad : amounts_from_L P Pl Pu L
                   = inl (ValueError AllPricesMustBePositive)).
    { unfold amounts_from_L; cbn. rewrite (Rleb_true P 0) by assumption.
      reflexivity. }
    rewrite Hbad. cbn. auto.
Qed.

Lemma LPPosition_methods_total_witness :
  exists x y,
    LPPosition.get_amounts (LPPosition.mk 1 1 9 (sqrt 1) (sqrt 9)) 4
    = inr (x, y)
    /\ 0 <= x /\ 0 <= y
    /\ LPPosition.get_value (LPPosition.mk 1 1 9 (sqrt 1) (sqrt 9)) 4
       = inr (x * 4 + y).
Proof.
  apply (LPPosition_methods_total 1 1 9 _
           (LPPosition_init_valid 1 1 9 ltac:(lra) ltac:(lra) ltac:(lra)) 4).
  lra.
Defined.

(** X3. In exact real arithmetic: [from_initial_value] returns exactly when
    0 < Plower < P0 < Pupper and the value is positive, and the position it
    returns is worth that value at P0.  With Plower = 0 the sizing succeeds
    and the constructor rejects the range.  On binary64 the value is met up
    to rounding, and a target small enough to give a liquidity of 0 is
    rejected by the constructor ([from_initial_value_on_binary64]). *)
Theorem LPPosition_from_initial_value_spec (P0 Pl Pu v : R) :
  ((exists pos, LPPosition.from_initial_value P0 Pl Pu v = inr pos)
   <-> 0 < Pl /\ Pl < P0 /\ P0 < Pu /\ 0 < v)
  /\ (forall pos,
      LPPosition.from_initial_value P0 Pl Pu v = inr pos ->
      LPPosition.Plower pos = Pl /\ LPPosition.Pupper pos = Pu
      /\ LPPosition.get_value pos P0 = inr v)
  /\ (Pl = 0 -> 0 < P0 -> P0 < Pu -> 0 < v ->
      LPPosition.from_initial_value P0 Pl Pu v
      = inl PositionPricesMustBePositive).
Proof.
  assert (Hvalid : 0 < Pl -> Pl < P0 -> P0 < Pu -> 0 < v ->
            LPPosition.from_initial_value P0 Pl Pu v
            = inr (LPPosition.mk
                     (v / (2 * sqrt P0 - P0 / sqrt Pu - sqrt Pl))
                     Pl Pu (sqrt Pl) (sqrt Pu))).
  { intros HPl Hl Hu Hv. unfold LPPosition.from_initial_value.
    rewrite L_from_initial_usd_valid by lra.
    apply LPPosition_init_valid; try lra.
    apply Rdiv_lt_0_compat; [assumption |].
    apply value_per_L_pos; lra. }
  assert (Hinv : forall pos,
            LPPosition.from_initial_value P0 Pl Pu v = inr pos ->
            0 < Pl /\ Pl < P0 /\ P0 < Pu /\ 0 < v).
  { intros pos. unfold LPPosition.from_initial_value.
    rewrite L_from_initial_usd_cases.
    destruct (Rltb_spec Pl P0); [| discriminate].
    destruct (Rltb_spec P0 Pu); [| discriminate]. cbn.
    destruct (Rleb_spec v 0); [discriminate |].
    destruct (_ || _); [discriminate |].
    intros Hinit. apply LPPosition_init_inr in Hinit. lra. }
  split; [| split].
  - split.
    + intros [pos Hpos]. exact (Hinv pos Hpos).
    + intros (HPl & Hl & Hu & Hv). eexists. apply Hvalid; assumption.
  - intros pos Hpos. destruct (Hinv pos Hpos) as (HPl & Hl & Hu & Hv).
    rewrite Hvalid in Hpos by assumption. injection Hpos as <-.
    unfold LPPosition.get_value. cbn.
    split; [reflexivity |]. split; [reflexivity |].
    pose proof (value_per_L_pos P0 Pl Pu (Rlt_le _ _ HPl) Hl Hu) as Hpos.
    rewrite lp_value_in_range;
      [| assumption | assumption | assumption
       | apply Rdiv_lt_0_compat; assumption].
    unfold ret. f_equal.
    unfold Rdiv at 1. rewrite Rmult_assoc, Rinv_l by lra. apply Rmult_1_r.
  - intros -> HP0 Hu Hv. unfold LPPosition.from_initial_value.
    rewrite L_from_initial_usd_valid by lra.
    unfold LPPosition.init; cbn.
    pose proof (value_per_L_pos P0 0 Pu ltac:(lra) HP0 Hu) as Hpos.
    rewrite Rleb_false by (apply Rdiv_lt_0_compat; assumption).
    rewrite Rleb_true by lra. reflexivity.
Qed.

Lemma LPPosition_from_initial_value_spec_witness :
  (exists pos, LPPosition.from_initial_value 2000 1800 2200 100000 = inr pos)
  /\ LPPosition.from_initial_value 2000 0 2200 100000
     = inl PositionPricesMustBePositive.
Proof.
  destruct (LPPosition_from_initial_value_spec 2000 1800 2200 100000)
    as ([_ Hex] & _).
  destruct (LPPosition_from_initial_value_spec 2000 0 2200 100000)
    as (_ & _ & Hzero).
  split; [apply Hex; lra | apply Hzero; lra].
Defined.

End PositionClass.

(** ** Loading and windowing the price file *)

Section Loading.
Variable F : Type.
Local Open Scope list_scope.
Local Open Scope Z_scope.

Lemma insert_row_perm (x : timestamp * F) (l : list (timestamp * F)) :
  Permutation (x :: l) (insert_row x l).
Proof.
  induction l as [| y l IH]; cbn; [apply Permutation_refl |].
  destruct (fst x <=? fst y); [apply Permutation_refl |].
  eapply perm_trans; [apply perm_swap |]. apply perm_skip. exact IH.
Qed.

Lemma sort_rows_perm (l : list (timestamp * F)) :
  Permutation l (sort_rows l).
Proof.
  induction l as [| x l IH]; cbn; [apply perm_nil |].
  eapply perm_trans; [apply perm_skip; exact IH | apply insert_row_perm].
Qed.

Lemma insert_row_sorted (x : timestamp * F) (l : list (timestamp * F)) :
  StronglySorted ts_le l -> StronglySorted ts_le (insert_row x l).
Proof.
  induction 1 as [| y l Hs IH Hy]; cbn.
  - constructor; constructor.
  - destruct (Z.leb_spec (fst x) (fst y)) as [Hxy | Hxy].
    + constructor; [constructor; assumption |].
      constructor; [exact Hxy |].
      eapply Forall_impl; [| exact Hy].
      intros z Hz. unfold ts_le in *. lia.
    + constructor; [exact IH |].
      eapply Permutation_Forall; [apply insert_row_perm |].
      constructor; [unfold ts_le; lia | exact Hy].
Qed.

Lemma sort_rows_sorted (l : list (timestamp * F)) :
  StronglySorted ts_le (sort_rows l).
Proof.
  induction l as [| x l IH]; cbn; [constructor |].
  apply insert_row_sorted. exact IH.
Qed.

Lemma insert_row_rows_at (t : timestamp) (x : timestamp * F)
    (l : list (timestamp * F)) :
  rows_at t (insert_row x l) = rows_at t (x :: l).
Proof.
  induction l as [| y l IH]; [reflexivity |].
  cbn [insert_row].
  destruct (Z.leb_spec (fst x) (fst y)) as [Hxy | Hxy]; [reflexivity |].
  unfold rows_at in *. cbn [filter] in *. rewrite IH.
  repeat match goal with
         | |- context [if ?b then _ else _] => destruct b eqn:?
         end; try reflexivity.
  repeat match goal with
         | Heq : (_ =? _) = true |- _ => apply Z.eqb_eq in Heq
         end.
  unfold timestamp in *. lia.
Qed.

Lemma sort_rows_rows_at (t : timestamp) (l : list (timestamp * F)) :
  rows_at t (sort_rows l) = rows_at t l.
Proof.
  induction l as [| x l IH]; [reflexivity |].
  cbn [sort_rows]. rewrite insert_row_rows_at.
  unfold rows_at in *. cbn [filter]. rewrite IH. reflexivity.
Qed.

(** X4. [load_eth_1h_csv] passes on the exception of reading the file,
    raises on a file without rows, and otherwise returns the file's rows
    sorted by timestamp: the same rows (duplicates kept), in ascending
    order, rows of equal timestamp in file order. *)
Theorem load_eth_1h_csv_spec
    (files : string -> result (list (timestamp * F))) (filename : string) :
  (forall e, files filename = inl e ->
             load_eth_1h_csv files filename = inl e)
  /\ (files filename = inr [] ->
      load_eth_1h_csv files filename = inl (ValueError NoRowsLoaded))
  /\ (forall rows, files filename = inr rows -> rows <> [] ->
      exists sorted,
        load_eth_1h_csv files filename = inr sorted
        /\ Permutation rows sorted
        /\ StronglySorted ts_le sorted
        /\ forall t, rows_at t sorted = rows_at t rows).
Proof.
  unfold load_eth_1h_csv.
  split; [| split].
  - intros e ->. reflexivity.
  - intros ->. reflexivity.
  - intros rows -> Hne. cbn [bind].
    destruct rows as [| r rows']; [contradiction |].
    exists (sort_rows (r :: rows')).
    split; [reflexivity |].
    split; [apply sort_rows_perm |].
    split; [apply sort_rows_sorted | intros t; apply sort_rows_rows_at].
Qed.

Lemma filter_period_sorted (data : list (timestamp * F))
    (start_ts end_ts : timestamp) :
  StronglySorted ts_le data ->
  StronglySorted ts_le (filter_period data start_ts end_ts).
Proof.
  unfold filter_period.
  induction 1 as [| y l Hs IH Hy]; cbn; [constructor |].
  match goal with
  | |- context [if ?b then _ else _] => destruct b; [| exact IH]
  end.
  constructor; [exact IH |].
  apply Forall_forall. intros z Hz. apply filter_In in Hz.
  rewrite Forall_forall in Hy. apply Hy. tauto.
Qed.

Lemma filter_period_rows_at (data : list (Z * F)) (start_ts end_ts t : Z) :
  start_ts <= t <= end_ts ->
  rows_at t (filter_period data start_ts end_ts) = rows_at t data.
Proof.
  intros Ht. unfold rows_at, filter_period.
  induction data as [| y l IH]; [reflexivity |].
  cbn [filter].
  destruct (Z.leb_spec start_ts (fst y)) as [H1 | H1];
    destruct (Z.leb_spec (fst y) end_ts) as [H2 | H2];
    destruct (Z.eqb_spec (fst y) t) as [H3 | H3];
    cbn [andb filter]; try rewrite IH;
    try (destruct (Z.eqb_spec (fst y) t); [| lia]);
    try (destruct (Z.eqb_spec (fst y) t); [lia |]);
    try reflexivity; lia.
Qed.

Lemma filter_period_empty (data : list (Z * F)) (start_ts end_ts : Z) :
  end_ts < start_ts -> filter_period data start_ts end_ts = [].
Proof.
  intros Hempty. unfold filter_period.
  induction data as [| y l IH]; [reflexivity |].
  cbn [filter].
  destruct (Z.leb_spec start_ts (fst y)) as [H1 | H1];
    destruct (Z.leb_spec (fst y) end_ts) as [H2 | H2];
    cbn [andb]; try exact IH.
  lia.
Qed.

(** X5. The window a run works on: the rows of the file whose timestamp is
    in [start_ts, end_ts], each as often as the file has it, in ascending
    order of time; it is empty when [end_ts < start_ts]. *)
Theorem price_window_spec
    (files : string -> result (list (timestamp * F))) (filename : string)
    (rows data_all : list (timestamp * F)) (start_ts end_ts : timestamp) :
  files filename = inr rows ->
  load_eth_1h_csv files filename = inr data_all ->
  let window := filter_period data_all start_ts end_ts in
  StronglySorted ts_le window
  /\ (forall r, In r window
                <-> In r rows /\ start_ts <= fst r <= end_ts)
  /\ (forall t, start_ts <= t <= end_ts ->
                rows_at t window = rows_at t rows)
  /\ (end_ts < start_ts -> window = []).
Proof.
  intros Hfile Hload window.
  assert (Hdata : data_all = sort_rows rows).
  { unfold load_eth_1h_csv in Hload. rewrite Hfile in Hload. cbn in Hload.
    destruct rows; [discriminate | injection Hload as <-; reflexivity]. }
  subst data_all. clear Hload. unfold window.
  split; [apply filter_period_sorted, sort_rows_sorted |].
  split; [| split].
  - intros r. unfold filter_period. rewrite filter_In.
    rewrite andb_true_iff, !Z.leb_le.
    split; intros [Hin Hr]; (split; [| exact Hr]).
    + eapply Permutation_in; [apply Permutation_sym, sort_rows_perm | exact Hin].
    + eapply Permutation_in; [apply sort_rows_perm | exact Hin].
  - intros t Ht. rewrite filter_period_rows_at by exact Ht.
    apply sort_rows_rows_at.
  - apply filter_period_empty.
Qed.

End Loading.

Lemma load_eth_1h_csv_spec_witness :
  load_eth_1h_csv sample_files "missing.csv" = inl FileNotFoundError
  /\ exists sorted,
      load_eth_1h_csv sample_files "eth_1h.csv" = inr sorted
      /\ Permutation sample_rows sorted
      /\ StronglySorted ts_le sorted
      /\ forall t, rows_at t sorted = rows_at t sample_rows.
Proof.
  destruct (load_eth_1h_csv_spec R sample_files "missing.csv")
    as (Hfail & _).
  destruct (load_eth_1h_csv_spec R sample_files "eth_1h.csv")
    as (_ & _ & Hok).
  split; [apply Hfail; reflexivity |].
  apply Hok; [reflexivity | discriminate].
Defined.

Lemma price_window_spec_witness :
  StronglySorted ts_le (filter_period sample_rows 1762473600%Z 1767657600%Z)
  /\ (forall r, In r (filter_period sample_rows 1762473600%Z 1767657600%Z)
                <-> In r sample_rows /\ (1762473600 <= fst r <= 1767657600)%Z)
  /\ (forall t, (1762473600 <= t <= 1767657600)%Z ->
                rows_at t (filter_period sample_rows 1762473600%Z 1767657600%Z)
                = rows_at t sample_rows)
  /\ ((1767657600 < 1762473600)%Z ->
      filter_period sample_rows 1762473600%Z 1767657600%Z = []).
Proof.
  apply (price_window_spec R sample_files "eth_1h.csv" sample_rows sample_rows
           1762473600%Z 1767657600%Z); reflexivity.
Defined.


(** ** When a run returns, and how it fails *)

Section RunOutcome.
Local Open Scope list_scope.
Local Open Scope R_scope.

Lemma amounts_from_L_nonpositive_price (P Pl Pu L : R) :
  P <= 0 ->
  amounts_from_L P Pl Pu L = inl (ValueError AllPricesMustBePositive).
Proof.
  intros HP. unfold amounts_from_L; cbn.
  rewrite (Rleb_true P 0) by assumption. reflexivity.
Qed.

Lemma lp_value_nonpositive_price (P Pl Pu L : R) :
  P <= 0 -> lp_value P Pl Pu L = inl (ValueError AllPricesMustBePositive).
Proof.
  intros HP. unfold lp_value.
  rewrite amounts_from_L_nonpositive_price by assumption. reflexivity.
Qed.

(** On a valid range the scan has two outcomes: it returns, and then every
    tick that triggered had a positive price; or a tick triggers at a
    non-positive price and [amounts_from_L] raises. *)
Lemma iterate_outcome (Pl Pu L hedge_k0 threshold : R)
    (ticks : list (timestamp * R)) :
  0 < Pl -> Pl < Pu -> 0 < L ->
  forall st : State.t R,
    0 < State.anchor_price st ->
    ((exists st', iterate Pl Pu L hedge_k0 threshold st ticks = inr st')
     /\ Forall (fun k => 0 < snd (fst k))
          (trigger_schedule threshold (State.anchor_price st) ticks))
    \/ (iterate Pl Pu L hedge_k0 threshold st ticks
        = inl (ValueError AllPricesMustBePositive)
        /\ ~ Forall (fun k => 0 < snd (fst k))
             (trigger_schedule threshold (State.anchor_price st) ticks)).
Proof.
  intros HPl Hlu HL.
  induction ticks as [| [ts P_now] rest IH]; intros st Ha.
  - left. split; [exists st; reflexivity | constructor].
  - rewrite iterate_cons. cbn [trigger_schedule].
    destruct (Rlt_dec (Rabs (P_now - State.anchor_price st)
                       / State.anchor_price st) threshold) as [Hm | Hm].
    + rewrite rebalance_step_skip by (assumption || lra).
      rewrite Rleb_false by assumption. cbn [bind]. apply IH. assumption.
    + rewrite Rleb_true by lra.
      destruct (calculate_k_total P_now Pl Pu hedge_k0 Hlu) as [k Hk].
      destruct (Rlt_dec 0 P_now) as [HP | HP].
      * destruct (amounts_from_L_total P_now Pl Pu L HP HPl Hlu HL)
          as (eth_now & usdt_now & Hx).
        rewrite (rebalance_step_trigger Pl Pu L hedge_k0 threshold st ts
                   P_now k eth_now usdt_now) by (assumption || lra).
        cbn [bind].
        destruct (IH (rebalanced st ts P_now k eth_now) HP)
          as [[Hret Hall] | [Herr Hall]]; cbn in Hall.
        -- left. split; [exact Hret |]. constructor; [exact HP | exact Hall].
        -- right. split; [exact Herr |].
           intros Hc. inversion Hc; subst. contradiction.
      * right. split.
        -- unfold rebalance_step.
           rewrite py_div_nonzero by lra. cbn.
           rewrite Rltb_false by lra. rewrite Hk. cbn.
           rewrite amounts_from_L_nonpositive_price by lra. reflexivity.
        -- intros Hc. inversion Hc; subst. cbn in *. contradiction.
Qed.

(** X6. A run whose window holds fewer than two points fails with the
    "not enough data points" error before any parameter is validated, and a
    failure of loading the file is passed on unchanged. *)
Theorem run_backtest_insufficient_data (cfg : Config.t R)
    (files : string -> result (list (timestamp * R)))
    (csv_file : option string) (start_ts end_ts : option timestamp)
    (oPl oPu oeth ok0 oth : option R) :
  (forall e,
      load_eth_1h_csv files (str_or csv_file (Config.CSV_FILE cfg)) = inl e ->
      run_backtest cfg files csv_file start_ts end_ts oPl oPu oeth ok0 oth
      = inl e)
  /\ (forall data_all,
      load_eth_1h_csv files (str_or csv_file (Config.CSV_FILE cfg))
      = inr data_all ->
      (List.length (filter_period data_all
                      (if_not_None start_ts (Config.START_TS cfg))
                      (if_not_None end_ts (Config.END_TS cfg))) < 2)%nat ->
      run_backtest cfg files csv_file start_ts end_ts oPl oPu oeth ok0 oth
      = inl (ValueError NotEnoughDataPoints)).
Proof.
  split.
  - intros e Hload. unfold run_backtest. rewrite Hload. reflexivity.
  - intros data_all Hload Hlen. unfold run_backtest. rewrite Hload.
    cbn [bind].
    destruct (filter_period data_all _ _) as [| first [| second rest]];
      [reflexivity | reflexivity | cbn in Hlen; lia].
Qed.

Lemma run_backtest_insufficient_data_witness :
  run_backtest frozen_config sample_files None (Some 1762473600%Z)
    (Some 1762473600%Z) (Some 0) (Some 0) (Some 0) None None
  = inl (ValueError NotEnoughDataPoints)
  /\ run_backtest frozen_config sample_files (Some "missing.csv"%string)
       None None None None None None None
     = inl FileNotFoundError.
Proof.
  split.
  - apply (proj2 (run_backtest_insufficient_data frozen_config sample_files
                    None (Some 1762473600%Z) (Some 1762473600%Z)
                    (Some 0) (Some 0) (Some 0) None None) sample_rows).
    + reflexivity.
    + cbn. lia.
  - apply (proj1 (run_backtest_insufficient_data frozen_config sample_files
                    (Some "missing.csv"%string) None None None None None
                    None None)).
    reflexivity.
Defined.

Lemma amounts_from_L_error (P Pl Pu L : R) (e : exn) :
  0 < L -> Pl < Pu ->
  amounts_from_L P Pl Pu L = inl e -> e = ValueError AllPricesMustBePositive.
Proof.
  intros HL Hlu Herr.
  destruct (Rle_dec P 0) as [HP | HP].
  { rewrite amounts_from_L_nonpositive_price in Herr by assumption.
    injection Herr as <-. reflexivity. }
  destruct (Rle_dec Pl 0) as [HPl | HPl].
  { unfold amounts_from_L in Herr; cbn in Herr.
    rewrite (Rleb_false P 0), (Rleb_true Pl 0) in Herr by lra.
    cbn in Herr. injection Herr as <-. reflexivity. }
  destruct (amounts_from_L_total P Pl Pu L) as (x & y & Hxy); try lra.
  rewrite Hxy in Herr. discriminate.
Qed.

Lemma lp_value_error (P Pl Pu L : R) (e : exn) :
  0 < L -> Pl < Pu ->
  lp_value P Pl Pu L = inl e -> e = ValueError AllPricesMustBePositive.
Proof.
  intros HL Hlu. unfold lp_value.
  destruct (amounts_from_L P Pl Pu L) as [e' | [x y]] eqn:Hx; cbn;
    [| discriminate].
  intros Heq; injection Heq as <-.
  exact (amounts_from_L_error P Pl Pu L e' HL Hlu Hx).
Qed.

Lemma calc_usdt_for_eth_in_pool_error (price lower upper eth_in_pool : R)
    (e : exn) :
  calc_usdt_for_eth_in_pool price lower upper eth_in_pool = inl e ->
  e = ValueError EthInPoolMustBePositive
  \/ e = ValueError NeedLowerLtPriceLtUpper
  \/ e = ValueError MathDomainError.
Proof.
  rewrite calc_usdt_for_eth_in_pool_cases.
  destruct (Rleb _ _); [intros Heq; injection Heq as <-; auto |].
  destruct (negb _); [intros Heq; injection Heq as <-; auto |].
  destruct (_ || _); [intros Heq; injection Heq as <-; auto | discriminate].
Qed.

(** What a run does once its window is known. *)
Lemma run_backtest_on_window (cfg : Config.t R)
    (files : string -> result (list (timestamp * R)))
    (csv_file : option string) (start_ts end_ts : option timestamp)
    (oPl oPu oeth ok0 oth : option R)
    (data_all : list (timestamp * R)) (first second : timestamp * R)
    (rest : list (timestamp * R)) :
  load_eth_1h_csv files (str_or csv_file (Config.CSV_FILE cfg)) = inr data_all ->
  filter_period data_all (if_not_None start_ts (Config.START_TS cfg))
    (if_not_None end_ts (Config.END_TS cfg)) = first :: second :: rest ->
  let Pl := if_not_None oPl (Config.PL cfg) in
  let Pu := if_not_None oPu (Config.PU cfg) in
  let eth_in_pool := if_not_None oeth (Config.ETH_IN_POOL cfg) in
  let threshold := if_not_None oth (Config.THRESHOLD cfg) in
  let run :=
    run_backtest cfg files csv_file start_ts end_ts oPl oPu oeth ok0 oth in
  (run_conditions Pl Pu eth_in_pool threshold (resolve_P0 cfg first) first
     (second :: rest)
   /\ exists out, run = inr out)
  \/ (~ run_conditions Pl Pu eth_in_pool threshold (resolve_P0 cfg first)
         first (second :: rest)
      /\ (run = inl (ValueError EthInPoolMustBePositive)
          \/ run = inl (ValueError NeedLowerLtPriceLtUpper)
          \/ run = inl (ValueError MathDomainError)
          \/ run = inl (ValueError AllPricesMustBePositive))).
Proof.
  intros Hload Hwin Pl Pu eth_in_pool threshold run.
  unfold run, run_backtest. rewrite Hload. cbn [bind]. rewrite Hwin.
  fold (resolve_P0 cfg first).
  fold Pl Pu eth_in_pool threshold.
  set (P0 := resolve_P0 cfg first) in *.
  set (hedge_k0 := if_not_None ok0 (Config.HEDGE_K0 cfg)).
  unfold run_conditions.
  destruct (calc_usdt_for_eth_in_pool P0 Pl Pu eth_in_pool)
    as [e | initial_usdt] eqn:Hcalc.
  { right. split.
    - intros ((HPl & Hl & Hu & He) & _).
      rewrite calc_usdt_for_eth_in_pool_valid in Hcalc by lra. discriminate.
    - cbn [bind].
      destruct (calc_usdt_for_eth_in_pool_error _ _ _ _ _ Hcalc)
        as [-> | [-> | ->]]; auto. }
  destruct (calc_usdt_for_eth_in_pool_inr _ _ _ _ _ Hcalc)
    as (He & HPl & Hl & Hu).
  pose proof (delta_sqrt_inv_pos P0 Pu ltac:(lra) Hu) as Hden.
  assert (Hb : 0 < sqrt P0) by (apply sqrt_pos; lra).
  assert (Hc : 0 < sqrt Pu) by (apply sqrt_pos; lra).
  cbn [bind].
  rewrite !py_sqrt_nonneg by lra. cbn [bind].
  rewrite !py_div_nonzero by (cbn; lra). cbn [bind].
  cbn [fleb fsub f0 f1 RFloat].
  rewrite Rleb_false by assumption.
  rewrite py_div_nonzero by lra. cbn [bind].
  set (L := eth_in_pool / (1 / sqrt P0 - 1 / sqrt Pu)).
  assert (HL : 0 < L) by (apply Rdiv_lt_0_compat; assumption).
  destruct (Rle_dec Pl 0) as [HPl0 | HPl0].
  { right. split; [intros ((HPl' & _) & _); lra |].
    assert (Hbad : amounts_from_L P0 Pl Pu L
                   = inl (ValueError AllPricesMustBePositive)).
    { unfold amounts_from_L; cbn.
      rewrite (Rleb_false P0 0), (Rleb_true Pl 0) by lra. reflexivity. }
    rewrite Hbad. cbn [bind]. auto. }
  destruct (amounts_from_L_total P0 Pl Pu L) as (eth0 & usdt0 & Hx0); try lra.
  rewrite Hx0. cbn [bind].
  destruct (lp_value_total P0 Pl Pu L) as (v0 & Hv0); try lra.
  rewrite Hv0. cbn [bind].
  match goal with
  | |- context [iterate Pl Pu L hedge_k0 threshold ?st0 (second :: rest)] =>
      destruct (iterate_outcome Pl Pu L hedge_k0 threshold (second :: rest)
                  ltac:(lra) ltac:(lra) HL st0 ltac:(cbn; lra))
        as [[[st Hit] Hall] | [Hit Hall]];
      cbn [State.anchor_price] in Hall; rewrite Hit; cbn [bind]
  end.
  2:{ right. split; [intros (_ & Hall' & _); contradiction | auto]. }
  match goal with
  | |- context [lp_value ?p Pl Pu L] => set (final_price := p)
  end.
  destruct (Rle_dec final_price 0) as [Hfin | Hfin].
  { right. split; [intros (_ & _ & Hfin'); exact (Rlt_not_le _ _ Hfin' Hfin) |].
    rewrite lp_value_nonpositive_price by assumption. cbn [bind]. auto. }
  destruct (lp_value_total final_price Pl Pu L) as (v1 & Hv1); try lra.
  rewrite Hv1. cbn [bind].
  left. split; [| eexists; reflexivity].
  split; [lra |]. split; [exact Hall |]. apply Rnot_le_lt. exact Hfin.
Qed.

(** X7. In exact real arithmetic: every failure of a run is the exception
    of loading the file or one of five [ValueError]s: too few points,
    non-positive primary amount, initial price outside the range, a negative
    bound under [math.sqrt], or a non-positive price.  In particular a run
    never divides by zero and never reaches its own "positive denom" check.
    On binary64 an initial price next to the upper bound fails with the
    solver's denominator error ([run_backtest_boundary_on_binary64]). *)
Theorem run_backtest_errors (cfg : Config.t R)
    (files : string -> result (list (timestamp * R)))
    (csv_file : option string) (start_ts end_ts : option timestamp)
    (oPl oPu oeth ok0 oth : option R) (e : exn) :
  run_backtest cfg files csv_file start_ts end_ts oPl oPu oeth ok0 oth
  = inl e ->
  load_eth_1h_csv files (str_or csv_file (Config.CSV_FILE cfg)) = inl e
  \/ e = ValueError NotEnoughDataPoints
  \/ e = ValueError EthInPoolMustBePositive
  \/ e = ValueError NeedLowerLtPriceLtUpper
  \/ e = ValueError MathDomainError
  \/ e = ValueError AllPricesMustBePositive.
Proof.
  intros Hrun.
  destruct (load_eth_1h_csv files (str_or csv_file (Config.CSV_FILE cfg)))
    as [e' | data_all] eqn:Hload.
  { left. unfold run_backtest in Hrun. rewrite Hload in Hrun.
    cbn [bind] in Hrun. injection Hrun as ->. reflexivity. }
  right.
  destruct (filter_period data_all
              (if_not_None start_ts (Config.START_TS cfg))
              (if_not_None end_ts (Config.END_TS cfg)))
    as [| first [| second rest]] eqn:Hwin.
  - unfold run_backtest in Hrun. rewrite Hload in Hrun. cbn [bind] in Hrun.
    rewrite Hwin in Hrun. injection Hrun as <-. auto.
  - unfold run_backtest in Hrun. rewrite Hload in Hrun. cbn [bind] in Hrun.
    rewrite Hwin in Hrun. injection Hrun as <-. auto.
  - destruct (run_backtest_on_window cfg files csv_file start_ts end_ts
                oPl oPu oeth ok0 oth data_all first second rest Hload Hwin)
      as [[_ [out Hout]] | [_ [Herr | [Herr | [Herr | Herr]]]]];
      rewrite Hrun in *; try discriminate;
      injection Herr as ->; auto 6.
Qed.

Lemma run_backtest_errors_witness :
  load_eth_1h_csv sample_files
    (str_or None (Config.CSV_FILE frozen_config))
  = inl (ValueError NotEnoughDataPoints)
  \/ ValueError NotEnoughDataPoints = ValueError NotEnoughDataPoints
  \/ ValueError NotEnoughDataPoints = ValueError EthInPoolMustBePositive
  \/ ValueError NotEnoughDataPoints = ValueError NeedLowerLtPriceLtUpper
  \/ ValueError NotEnoughDataPoints = ValueError MathDomainError
  \/ ValueError NotEnoughDataPoints = ValueError AllPricesMustBePositive.
Proof.
  apply (run_backtest_errors frozen_config sample_files None
           (Some 1762473600%Z) (Some 1762473600%Z) None None None None None).
  reflexivity.
Defined.


End RunOutcome.

(** ** The two sizing conventions *)

Section SizingConventions.
Local Open Scope R_scope.


(** X12. In exact real arithmetic the two conventions agree: sizing a
    position by value at P0 and then asking the solver for the complementary
    amount that goes with the resulting primary amount gives the
    complementary amount of that position, and the two amounts are worth the
    target value.  On binary64 the value is met up to rounding
    ([sizing_conventions_on_binary64]). *)
Theorem sizing_conventions_agree (P0 Pl Pu initial_usd : R) :
  0 < Pl -> Pl < P0 -> P0 < Pu -> 0 < initial_usd ->
  exists L x y,
    L_from_initial_usd P0 Pl Pu initial_usd = inr L
    /\ amounts_from_L P0 Pl Pu L = inr (x, y)
    /\ calc_usdt_for_eth_in_pool P0 Pl Pu x = inr y
    /\ x * P0 + y = initial_usd.
Proof.
  intros HPl Hl Hu Hv.
  pose proof (value_per_L_pos P0 Pl Pu (Rlt_le _ _ HPl) Hl Hu) as Hvp.
  pose proof (delta_sqrt_inv_pos P0 Pu ltac:(lra) Hu) as Hden.
  set (L := initial_usd / (2 * sqrt P0 - P0 / sqrt Pu - sqrt Pl)).
  assert (HL : 0 < L) by (apply Rdiv_lt_0_compat; assumption).
  exists L, (L * (1 / sqrt P0 - 1 / sqrt Pu)), (L * (sqrt P0 - sqrt Pl)).
  split; [apply L_from_initial_usd_valid; lra |].
  split.
  { rewrite amounts_from_L_valid by lra.
    rewrite Rleb_false, Rltb_true by lra. reflexivity. }
  split.
  { rewrite calc_usdt_for_eth_in_pool_valid; try lra.
    - f_equal. unfold Rdiv at 1.
      rewrite (Rmult_assoc L), Rinv_r by lra. rewrite Rmult_1_r. reflexivity.
    - apply Rmult_lt_0_compat; assumption. }
  pose proof (lp_value_in_range P0 Pl Pu L HPl Hl Hu HL) as Hval.
  unfold lp_value in Hval.
  rewrite amounts_from_L_valid in Hval by lra.
  rewrite Rleb_false, Rltb_true in Hval by lra. cbn in Hval.
  injection Hval as Hval. rewrite Hval. unfold L.
  unfold Rdiv at 1. rewrite Rmult_assoc, Rinv_l by lra. apply Rmult_1_r.
Qed.

Lemma sizing_conventions_agree_witness :
  exists L x y,
    L_from_initial_usd 2000 1800 2200 100000 = inr L
    /\ amounts_from_L 2000 1800 2200 L = inr (x, y)
    /\ calc_usdt_for_eth_in_pool 2000 1800 2200 x = inr y
    /\ x * 2000 + y = 100000.
Proof.
  apply (sizing_conventions_agree 2000 1800 2200 100000); lra.
Defined.

End SizingConventions.

(** ** Turnover and hedge profit *)

Section HedgeBooks.
Local Open Scope list_scope.
Local Open Scope R_scope.

Lemma sum_abs_delta_app (acc : R) (l1 l2 : list (Event.t R)) :
  sum_abs_delta acc (l1 ++ l2) = sum_abs_delta (sum_abs_delta acc l1) l2.
Proof. unfold sum_abs_delta. apply fold_left_app. Qed.

Lemma sum_abs_delta_ge (events : list (Event.t R)) :
  forall acc, acc <= sum_abs_delta acc events.
Proof.
  induction events as [| e events IH]; intros acc; cbn; [lra |].
  eapply Rle_trans; [| apply IH].
  pose proof (Rabs_pos (Event.delta_H e)). lra.
Qed.

Lemma iterate_cumulative (Pl Pu L hedge_k0 threshold : R)
    (ticks : list (timestamp * R)) :
  forall st st' : State.t R,
    iterate Pl Pu L hedge_k0 threshold st ticks = inr st' ->
    exists new : list (Event.t R),
      State.rebalance_events st' = State.rebalance_events st ++ new
      /\ State.cumulative_abs_delta_h st'
         = sum_abs_delta (State.cumulative_abs_delta_h st) new.
Proof.
  induction ticks as [| [ts P_now] rest IH]; intros st st' Hrun.
  - injection Hrun as <-. exists []. rewrite app_nil_r. auto.
  - rewrite iterate_cons in Hrun.
    destruct (rebalance_step Pl Pu L hedge_k0 threshold st (ts, P_now))
      as [e | st1] eqn:Hstep; cbn in Hrun; [discriminate |].
    destruct (rebalance_step_inv Pl Pu L hedge_k0 threshold st st1 ts P_now
                Hstep)
      as [Ha [[Hm ->] | [Hm (k & eth_now & usdt_now & Hk & Hx & ->)]]].
    + apply (IH st st' Hrun).
    + destruct (IH _ st' Hrun) as (new & He & Hc).
      cbn in He, Hc.
      eexists (_ :: new).
      split; [rewrite He, <- app_assoc; reflexivity |].
      rewrite Hc. reflexivity.
Qed.

(** X10. The summary's cumulative turnover is the sum of [|delta_H|] over
    the event log, hence non-negative, and the rebalance count is the length
    of the log. *)
Theorem cumulative_turnover (cfg : Config.t R)
    (files : string -> result (list (timestamp * R)))
    (csv_file : option string) (start_ts end_ts : option timestamp)
    (oPl oPu oeth ok0 oth : option R) (out : Output.t R) :
  run_backtest cfg files csv_file start_ts end_ts oPl oPu oeth ok0 oth
  = inr out ->
  Summary.cumulative_abs_delta_h (Output.summary out)
  = sum_abs_delta 0 (Output.rebalance_events out)
  /\ 0 <= Summary.cumulative_abs_delta_h (Output.summary out)
  /\ Summary.rebalance_count (Output.summary out)
     = List.length (Output.rebalance_events out).
Proof.
  intros Hrun.
  destruct (run_backtest_inv cfg files csv_file start_ts end_ts
              oPl oPu oeth ok0 oth out Hrun)
    as (data_all & first & rest & st & iu & v0 & v1
        & _ & _ & _ & _ & _ & Hit & _ & ->).
  destruct (iterate_cumulative _ _ _ _ _ _ _ _ Hit) as (new & He & Hc).
  destruct (iterate_trigger_schedule _ _ _ _ _ _ _ _ Hit)
    as (new' & He' & _ & _ & _ & Hn).
  cbn in He, Hc, He', Hn. cbn. rewrite Hc.
  split; [rewrite He; reflexivity |].
  split; [apply sum_abs_delta_ge |].
  rewrite Hn, He'. reflexivity.
Qed.

Lemma cumulative_turnover_witness :
  exists out,
    run_backtest frozen_config sample_files None None None None None None
      None None = inr out
    /\ Summary.cumulative_abs_delta_h (Output.summary out)
       = sum_abs_delta 0 (Output.rebalance_events out)
    /\ 0 <= Summary.cumulative_abs_delta_h (Output.summary out)
    /\ Summary.rebalance_count (Output.summary out)
       = List.length (Output.rebalance_events out).
Proof.
  destruct frozen_run_completes as [out Hout].
  exists out. split; [exact Hout |].
  exact (cumulative_turnover _ _ _ _ _ _ _ _ _ _ out Hout).
Defined.

Lemma accounting_chain_holding_pnl (Pl Pu L hedge_k0 : R)
    (events : list (Event.t R)) (final_price : R) :
  forall H cash P_prev : R,
    accounting_chain Pl Pu L hedge_k0 H cash events ->
    last (map (@Event.cash R) events) cash
    + last (map (@Event.H_target R) events) H * final_price
    = cash + H * P_prev + holding_pnl H P_prev events final_price.
Proof.
  induction events as [| e events IH]; intros H cash P_prev Hchain.
  - cbn. ring.
  - cbn in Hchain.
    destruct Hchain as (_ & _ & Hb & Ht & Hd & Hc & _ & Hrest).
    specialize (IH _ _ (Event.price e) Hrest).
    cbn [holding_pnl].
    replace (last (map (@Event.cash R) (e :: events)) cash)
      with (last (map (@Event.cash R) events) (Event.cash e))
      by (destruct events; [reflexivity |];
          cbn [map]; rewrite last_cons_cons; apply last_nonempty_default).
    replace (last (map (@Event.H_target R) (e :: events)) H)
      with (last (map (@Event.H_target R) events) (Event.H_target e))
      by (destruct events; [reflexivity |];
          cbn [map]; rewrite last_cons_cons; apply last_nonempty_default).
    rewrite IH. rewrite Hc, Hd, Hb. ring.
Qed.

(** X11. In exact real arithmetic the hedge is frictionless: a trade changes
    no value at its own price (each event's mark-to-market PnL is the cash
    and position before the trade valued at the event's price), and the
    final hedge PnL is the profit of holding each position from one trade to
    the next: the opening short from P0, each target from its event's price,
    the last one up to the final price.  On binary64 the two sides agree up
    to rounding ([hedge_pnl_on_binary64]). *)
Theorem hedge_pnl_is_holding_pnl (cfg : Config.t R)
    (files : string -> result (list (timestamp * R)))
    (csv_file : option string) (start_ts end_ts : option timestamp)
    (oPl oPu oeth ok0 oth : option R) (out : Output.t R) :
  run_backtest cfg files csv_file start_ts end_ts oPl oPu oeth ok0 oth
  = inr out ->
  let s := Output.summary out in
  Summary.hedge_pnl s
  = holding_pnl (- (Summary.eth_in_pool s * Summary.hedge_k0 s))
      (Summary.P0 s) (Output.rebalance_events out) (Summary.final_price s)
  /\ Forall (fun e =>
               Event.hedge_pnl_mtm e
               = (Event.cash e + Event.delta_H e * Event.price e)
                 + Event.H_before e * Event.price e)
       (Output.rebalance_events out)
  /\ (Output.rebalance_events out = [] ->
      Summary.hedge_pnl s
      = Summary.eth_in_pool s * Summary.hedge_k0 s
        * (Summary.P0 s - Summary.final_price s)).
Proof.
  intros Hrun.
  destruct (run_backtest_inv cfg files csv_file start_ts end_ts
              oPl oPu oeth ok0 oth out Hrun)
    as (data_all & first & rest & st & iu & v0 & v1
        & _ & _ & _ & _ & _ & Hit & _ & ->).
  destruct (iterate_accounting _ _ _ _ _ _ _ _ Hit) as (new & He & Hchain).
  destruct (iterate_last_event _ _ _ _ _ _ _ _ Hit) as (new' & He' & Hc & Hh).
  cbn in He, Hchain, He', Hc, Hh.
  rewrite <- He' in Hc, Hh. rewrite He in Hc, Hh. clear new' He'.
  cbn. rewrite He.
  assert (Hpnl : State.cash st
                 + State.current_H st * snd (last rest first)
                 = holding_pnl
                     (- (if_not_None oeth (Config.ETH_IN_POOL cfg)
                         * if_not_None ok0 (Config.HEDGE_K0 cfg)))
                     (resolve_P0 cfg first) new (snd (last rest first))).
  { rewrite Hc, Hh.
    rewrite (accounting_chain_holding_pnl _ _ _ _ new _ _ _
               (resolve_P0 cfg first) Hchain).
    ring. }
  split; [exact Hpnl |].
  split.
  - clear Hpnl Hc Hh He. revert Hchain.
    generalize (- (if_not_None oeth (Config.ETH_IN_POOL cfg)
                   * if_not_None ok0 (Config.HEDGE_K0 cfg))).
    generalize (0 + if_not_None oeth (Config.ETH_IN_POOL cfg)
                    * if_not_None ok0 (Config.HEDGE_K0 cfg)
                    * resolve_P0 cfg first).
    induction new as [| e new IH]; intros cash H Hchain; [constructor |].
    cbn in Hchain.
    destruct Hchain as (_ & _ & Hb & Ht & Hd & Hc & Hm & Hrest).
    constructor; [| exact (IH _ _ Hrest)].
    rewrite Hm, Hd. ring.
  - intros Hnil. rewrite Hpnl, Hnil. cbn. ring.
Qed.

Lemma hedge_pnl_is_holding_pnl_witness :
  exists out,
    run_backtest frozen_config sample_files None None None None None None
      None None = inr out
    /\ Summary.hedge_pnl (Output.summary out)
       = holding_pnl
           (- (Summary.eth_in_pool (Output.summary out)
               * Summary.hedge_k0 (Output.summary out)))
           (Summary.P0 (Output.summary out)) (Output.rebalance_events out)
           (Summary.final_price (Output.summary out)).
Proof.
  destruct frozen_run_completes as [out Hout].
  exists out. split; [exact Hout |].
  exact (proj1 (hedge_pnl_is_holding_pnl _ _ _ _ _ _ _ _ _ _ out Hout)).
Defined.

End HedgeBooks.

(** ** The opening position of a run *)

Section OpeningPosition.
Local Open Scope list_scope.
Local Open Scope R_scope.

(** X13. In exact real arithmetic the liquidity a run derives reproduces its
    inputs: at P0 the position holds exactly the configured primary amount
    and the complementary amount the solver reported, so the starting value
    is [eth_in_pool * P0 + initial_usdt_required]; the liquidity is positive
    and 0 < Pl < P0 < Pu.  On binary64 the primary amount is reproduced up
    to rounding ([opening_position_on_binary64]). *)
Theorem opening_position_consistent (cfg : Config.t R)
    (files : string -> result (list (timestamp * R)))
    (csv_file : option string) (start_ts end_ts : option timestamp)
    (oPl oPu oeth ok0 oth : option R) (out : Output.t R) :
  run_backtest cfg files csv_file start_ts end_ts oPl oPu oeth ok0 oth
  = inr out ->
  let s := Output.summary out in
  amounts_from_L (Summary.P0 s) (Summary.Pl s) (Summary.Pu s) (Summary.L s)
  = inr (Summary.eth_in_pool s, Summary.initial_usdt_required s)
  /\ Summary.lp_value_start s
     = Summary.eth_in_pool s * Summary.P0 s + Summary.initial_usdt_required s
  /\ 0 < Summary.L s
  /\ 0 < Summary.Pl s < Summary.P0 s
  /\ Summary.P0 s < Summary.Pu s
  /\ 0 < Summary.initial_usdt_required s.
Proof.
  intros Hrun.
  destruct (run_backtest_inv cfg files csv_file start_ts end_ts
              oPl oPu oeth ok0 oth out Hrun)
    as (data_all & first & rest & st & iu & v0 & v1
        & _ & _ & _ & Hcalc & Hv0 & _ & _ & ->).
  cbn.
  set (P0 := resolve_P0 cfg first) in *.
  set (Pl := if_not_None oPl (Config.PL cfg)) in *.
  set (Pu := if_not_None oPu (Config.PU cfg)) in *.
  set (eth := if_not_None oeth (Config.ETH_IN_POOL cfg)) in *.
  destruct (calc_usdt_for_eth_in_pool_inr _ _ _ _ _ Hcalc)
    as (He & HPl & Hl & Hu).
  pose proof (delta_sqrt_inv_pos P0 Pu ltac:(lra) Hu) as Hden.
  set (L := eth / (1 / sqrt P0 - 1 / sqrt Pu)) in *.
  assert (HL : 0 < L) by (apply Rdiv_lt_0_compat; assumption).
  assert (HPl' : 0 < Pl).
  { unfold lp_value in Hv0.
    destruct (amounts_from_L P0 Pl Pu L) as [e | [x y]] eqn:Hx;
      [discriminate |].
    destruct (amounts_from_L_inr _ _ _ _ _ _ Hx) as (_ & H0 & _). exact H0. }
  rewrite calc_usdt_for_eth_in_pool_valid in Hcalc by lra.
  injection Hcalc as Hiu. fold L in Hiu.
  assert (Hx : amounts_from_L P0 Pl Pu L = inr (eth, iu)).
  { rewrite amounts_from_L_valid by lra.
    rewrite Rleb_false, Rltb_true by lra. rewrite Hiu. f_equal. f_equal.
    unfold L, Rdiv at 1. rewrite Rmult_assoc, Rinv_l by lra.
    apply Rmult_1_r. }
  split; [exact Hx |].
  split.
  { unfold lp_value in Hv0. rewrite Hx in Hv0. cbn in Hv0.
    injection Hv0 as <-. reflexivity. }
  split; [exact HL |]. split; [lra |]. split; [lra |].
  rewrite <- Hiu. apply Rmult_lt_0_compat; [exact HL |].
  pose proof (sqrt_lt Pl P0 HPl Hl). lra.
Qed.

Lemma opening_position_consistent_witness :
  exists out,
    run_backtest frozen_config sample_files None None None None None None
      None None = inr out
    /\ amounts_from_L (Summary.P0 (Output.summary out))
         (Summary.Pl (Output.summary out)) (Summary.Pu (Output.summary out))
         (Summary.L (Output.summary out))
       = inr (Summary.eth_in_pool (Output.summary out),
              Summary.initial_usdt_required (Output.summary out)).
Proof.
  destruct frozen_run_completes as [out Hout].
  exists out. split; [exact Hout |].
  exact (proj1 (opening_position_consistent _ _ _ _ _ _ _ _ _ _ out Hout)).
Defined.

End OpeningPosition.

(** ** How ratio and composition move with the price *)

Section PriceMonotonicity.
Local Open Scope R_scope.

(** X14. In exact real arithmetic the hedge ratio never rises with the
    price: for k0 in [0,1] and P1 <= P2, [calculate_k] at P2 is at most
    [calculate_k] at P1.  On binary64 it can rise in the last places between
    adjacent prices ([calculate_k_rises_on_binary64]). *)
Theorem calculate_k_nonincreasing (Pl Pu k0 P1 P2 : R) :
  Pl < Pu -> 0 <= k0 <= 1 -> P1 <= P2 ->
  exists k1 k2,
    calculate_k P1 Pl Pu k0 = inr k1
    /\ calculate_k P2 Pl Pu k0 = inr k2
    /\ k2 <= k1.
Proof.
  intros Hlu Hk0 H12.
  rewrite !calculate_k_valid by assumption.
  do 2 eexists. split; [reflexivity |]. split; [reflexivity |].
  set (mid := (Pl + Pu) / 2).
  assert (Hmid : Pl < mid < Pu) by (unfold mid; lra).
  assert (Hi1 : 0 < / (mid - Pl)) by (apply Rinv_0_lt_compat; lra).
  assert (Hi2 : 0 < / (Pu - mid)) by (apply Rinv_0_lt_compat; lra).
  assert (Hh1 : (mid - Pl) * / (mid - Pl) = 1) by (apply Rinv_r; lra).
  assert (Hh2 : (Pu - mid) * / (Pu - mid) = 1) by (apply Rinv_r; lra).
  assert (HA : forall P, Pl <= P <= mid ->
             0 <= (P - Pl) * / (mid - Pl) <= 1).
  { intros P HP. split; [nra |].
    rewrite <- Hh1. apply Rmult_le_compat_r; lra. }
  assert (HB : forall P, mid <= P <= Pu ->
             0 <= (P - mid) * / (Pu - mid) <= 1).
  { intros P HP. split; [nra |].
    rewrite <- Hh2. apply Rmult_le_compat_r; lra. }
  unfold Rdiv. rewrite !Rmult_assoc.
  destruct (Rleb_spec P1 Pl) as [Ha1 | Ha1];
    destruct (Rleb_spec P2 Pl) as [Ha2 | Ha2]; try lra;
    destruct (Rleb_spec Pu P1) as [Hb1 | Hb1];
    destruct (Rleb_spec Pu P2) as [Hb2 | Hb2]; try lra;
    destruct (Rleb_spec P1 mid) as [Hc1 | Hc1];
    destruct (Rleb_spec P2 mid) as [Hc2 | Hc2]; try lra;
    try (pose proof (HA P1 ltac:(lra)));
    try (pose proof (HA P2 ltac:(lra)));
    try (pose proof (HB P1 ltac:(lra)));
    try (pose proof (HB P2 ltac:(lra)));
    try nra.
  - assert ((P1 - Pl) * / (mid - Pl) <= (P2 - Pl) * / (mid - Pl))
      by (apply Rmult_le_compat_r; lra).
    nra.
  - assert ((P1 - mid) * / (Pu - mid) <= (P2 - mid) * / (Pu - mid))
      by (apply Rmult_le_compat_r; lra).
    nra.
Qed.

Lemma calculate_k_nonincreasing_witness :
  exists k1 k2,
    calculate_k 2900 2651 3498 (7 / 10) = inr k1
    /\ calculate_k 3200 2651 3498 (7 / 10) = inr k2
    /\ k2 <= k1.
Proof.
  apply (calculate_k_nonincreasing 2651 3498 (7 / 10) 2900 3200); lra.
Defined.

(** X15. As the price rises the position sheds the primary asset and takes
    on the complementary one: for P1 <= P2 on a valid position, the primary
    amount at P2 is at most the one at P1 and the complementary amount at
    P2 at least the one at P1; both stay within their values at the range
    bounds. *)
Theorem amounts_from_L_monotone (Pl Pu L P1 P2 : R) :
  0 < Pl -> Pl < Pu -> 0 < L -> 0 < P1 -> P1 <= P2 ->
  exists x1 y1 x2 y2,
    amounts_from_L P1 Pl Pu L = inr (x1, y1)
    /\ amounts_from_L P2 Pl Pu L = inr (x2, y2)
    /\ x2 <= x1 /\ y1 <= y2
    /\ x1 <= L * (1 / sqrt Pl - 1 / sqrt Pu)
    /\ y2 <= L * (sqrt Pu - sqrt Pl).
Proof.
  intros HPl Hlu HL HP1 H12.
  rewrite !amounts_from_L_valid by lra.
  pose proof (inv_sqrt_lt Pl Pu HPl Hlu) as Hiu.
  pose proof (sqrt_lt Pl Pu (Rlt_le _ _ HPl) Hlu) as Hsu.
  assert (Hin : forall P, Pl < P -> P < Pu ->
            1 / sqrt Pu < 1 / sqrt P < 1 / sqrt Pl
            /\ sqrt Pl < sqrt P < sqrt Pu).
  { intros P Hl Hu.
    pose proof (inv_sqrt_lt Pl P HPl Hl).
    pose proof (inv_sqrt_lt P Pu ltac:(lra) Hu).
    pose proof (sqrt_lt Pl P (Rlt_le _ _ HPl) Hl).
    pose proof (sqrt_lt P Pu ltac:(lra) Hu). lra. }
  assert (Hstep : Pl < P1 -> P1 < P2 -> P2 < Pu ->
            1 / sqrt P2 < 1 / sqrt P1 /\ sqrt P1 < sqrt P2).
  { intros Hl H Hu.
    pose proof (inv_sqrt_lt P1 P2 HP1 H).
    pose proof (sqrt_lt P1 P2 (Rlt_le _ _ HP1) H). lra. }
  destruct (Rleb_spec P1 Pl) as [Ha1 | Ha1];
    destruct (Rleb_spec P2 Pl) as [Ha2 | Ha2]; try lra;
    destruct (Rltb_spec P1 Pu) as [Hb1 | Hb1];
    destruct (Rltb_spec P2 Pu) as [Hb2 | Hb2]; try lra;
    do 4 eexists; (split; [reflexivity |]); (split; [reflexivity |]);
    try (pose proof (Hin P1 ltac:(lra) ltac:(lra)));
    try (pose proof (Hin P2 ltac:(lra) ltac:(lra)));
    try (repeat split; nra).
  destruct (Req_dec P1 P2) as [-> | Hne]; [repeat split; nra |].
  pose proof (Hstep ltac:(lra) ltac:(lra) ltac:(lra)).
  repeat split; nra.
Qed.

Lemma amounts_from_L_monotone_witness :
  exists x1 y1 x2 y2,
    amounts_from_L 2900 2651 3498 600 = inr (x1, y1)
    /\ amounts_from_L 3200 2651 3498 600 = inr (x2, y2)
    /\ x2 <= x1 /\ y1 <= y2
    /\ x1 <= 600 * (1 / sqrt 2651 - 1 / sqrt 3498)
    /\ y2 <= 600 * (sqrt 3498 - sqrt 2651).
Proof.
  apply (amounts_from_L_monotone 2651 3498 600 2900 3200); lra.
Defined.

Lemma lp_value_valid (P Pl Pu L : R) :
  0 < P -> 0 < Pl -> Pl < Pu -> 0 < L ->
  lp_value P Pl Pu L =
    inr (if Rleb P Pl then L * (1 / sqrt Pl - 1 / sqrt Pu) * P
         else if Rltb P Pu then L * (2 * sqrt P - P / sqrt Pu - sqrt Pl)
         else L * (sqrt Pu - sqrt Pl)).
Proof.
  intros HP HPl Hlu HL.
  destruct (Rleb_spec P Pl) as [H1 | H1].
  - unfold lp_value. rewrite amounts_from_L_valid by assumption.
    rewrite Rleb_true by assumption. cbn. unfold ret. f_equal. ring.
  - destruct (Rltb_spec P Pu) as [H2 | H2].
    + apply lp_value_in_range; lra.
    + unfold lp_value. rewrite amounts_from_L_valid by assumption.
      rewrite Rleb_false, Rltb_false by lra. cbn. unfold ret. f_equal. ring.
Qed.

(** X16. In exact real arithmetic the value of a position is positive, never
    falls when the price rises, and is capped: for 0 < P1 <= P2, [lp_value]
    at P1 is at most [lp_value] at P2, which is at most
    L * (sqrt Pu - sqrt Pl), the value at and above the upper bound.  On
    binary64 the value can fall in the last places between adjacent prices
    and be 0 between adjacent bounds ([lp_value_on_binary64]). *)
Theorem lp_value_nondecreasing (Pl Pu L P1 P2 : R) :
  0 < Pl -> Pl < Pu -> 0 < L -> 0 < P1 -> P1 <= P2 ->
  exists v1 v2,
    lp_value P1 Pl Pu L = inr v1
    /\ lp_value P2 Pl Pu L = inr v2
    /\ 0 < v1 /\ v1 <= v2
    /\ v2 <= L * (sqrt Pu - sqrt Pl)
    /\ (Pu <= P2 -> v2 = L * (sqrt Pu - sqrt Pl)).
Proof.
  intros HPl Hlu HL HP1 H12.
  rewrite !lp_value_valid by lra.
  do 2 eexists. split; [reflexivity |]. split; [reflexivity |].
  unfold Rdiv. rewrite !Rmult_1_l.
  set (a := sqrt Pl). set (c := sqrt Pu).
  assert (Ha : 0 < a) by (apply sqrt_pos; lra).
  assert (Hac : a < c) by (apply sqrt_lt; lra).
  assert (Haa : a * a = Pl) by (apply sqrt_def; lra).
  assert (Hcc : c * c = Pu) by (apply sqrt_def; lra).
  assert (Hia : a * / a = 1) by (apply Rinv_r; lra).
  assert (Hic : c * / c = 1) by (apply Rinv_r; lra).
  assert (Hia0 : 0 < / a) by (apply Rinv_0_lt_compat; lra).
  assert (Hic0 : 0 < / c) by (apply Rinv_0_lt_compat; lra).
  assert (Hiac : / c < / a) by (apply Rinv_lt_contravar; nra).
  (* the in-range value, as a function of the square root of the price *)
  set (g := fun b : R => 2 * b - b * b * / c - a).
  assert (Hg : forall b1 b2, a <= b1 -> b1 <= b2 -> b2 <= c ->
            L * g b1 <= L * g b2).
  { intros b1 b2 H1 H2 H3. apply Rmult_le_compat_l; [lra |]. unfold g.
    assert (0 <= (b2 - b1) * ((2 * c - b1 - b2) * / c))
      by (apply Rmult_le_pos; [lra | apply Rmult_le_pos; lra]).
    nra. }
  set (K := L * (/ a - / c)).
  assert (HK : 0 < K) by (unfold K; apply Rmult_lt_0_compat; lra).
  assert (HKa : K * Pl = L * g a)
    by (unfold K, g; rewrite <- Haa; field; lra).
  assert (Hgc : L * g c = L * (c - a)) by (unfold g; field; lra).
  assert (Hlow : forall P, 0 < P -> P <= Pl -> 0 < K * P <= L * g a).
  { intros P H0 H1. rewrite <- HKa. split; nra. }
  assert (Hin : forall P, Pl < P -> P < Pu ->
            L * (2 * sqrt P - P * / c - a) = L * g (sqrt P)
            /\ a < sqrt P < c).
  { intros P Hl Hu. split.
    - unfold g. rewrite (sqrt_def P) by lra. reflexivity.
    - unfold a, c. split; apply sqrt_lt; lra. }
  assert (Hga0 : 0 < L * g a) by (rewrite <- HKa; nra).
  destruct (Rleb_spec P1 Pl) as [Ha1 | Ha1];
    destruct (Rleb_spec P2 Pl) as [Ha2 | Ha2]; try lra;
    destruct (Rltb_spec P1 Pu) as [Hb1 | Hb1];
    destruct (Rltb_spec P2 Pu) as [Hb2 | Hb2]; try lra.
  - (* both at or below the range *)
    pose proof (Hlow P1 HP1 Ha1). pose proof (Hlow P2 ltac:(lra) Ha2).
    pose proof (Hg a c ltac:(lra) ltac:(lra) ltac:(lra)).
    assert (K * P1 <= K * P2) by nra.
    repeat split; try lra.
  - (* P1 below, P2 inside *)
    destruct (Hin P2 ltac:(lra) ltac:(lra)) as [-> Hb].
    pose proof (Hlow P1 HP1 Ha1).
    pose proof (Hg a (sqrt P2) ltac:(lra) ltac:(lra) ltac:(lra)).
    pose proof (Hg (sqrt P2) c ltac:(lra) ltac:(lra) ltac:(lra)).
    repeat split; try lra.
  - (* P1 below, P2 above *)
    pose proof (Hlow P1 HP1 Ha1).
    pose proof (Hg a c ltac:(lra) ltac:(lra) ltac:(lra)).
    repeat split; try lra.
  - (* both inside *)
    destruct (Hin P1 ltac:(lra) ltac:(lra)) as [-> Hb1'].
    destruct (Hin P2 ltac:(lra) ltac:(lra)) as [-> Hb2'].
    assert (sqrt P1 <= sqrt P2) by (apply sqrt_le_1; lra).
    pose proof (Hg a (sqrt P1) ltac:(lra) ltac:(lra) ltac:(lra)).
    pose proof (Hg (sqrt P1) (sqrt P2) ltac:(lra) ltac:(lra) ltac:(lra)).
    pose proof (Hg (sqrt P2) c ltac:(lra) ltac:(lra) ltac:(lra)).
    repeat split; try lra.
  - (* P1 inside, P2 above *)
    destruct (Hin P1 ltac:(lra) ltac:(lra)) as [-> Hb1'].
    pose proof (Hg a (sqrt P1) ltac:(lra) ltac:(lra) ltac:(lra)).
    pose proof (Hg (sqrt P1) c ltac:(lra) ltac:(lra) ltac:(lra)).
    repeat split; try lra.
  - (* both above *)
    pose proof (Hg a c ltac:(lra) ltac:(lra) ltac:(lra)).
    repeat split; try lra.
Qed.

Lemma lp_value_nondecreasing_witness :
  exists v1 v2,
    lp_value 2900 2651 3498 600 = inr v1
    /\ lp_value 3200 2651 3498 600 = inr v2
    /\ 0 < v1 /\ v1 <= v2
    /\ v2 <= 600 * (sqrt 3498 - sqrt 2651)
    /\ (3498 <= 3200 -> v2 = 600 * (sqrt 3498 - sqrt 2651)).
Proof.
  apply (lp_value_nondecreasing 2651 3498 600 2900 3200); lra.
Defined.

End PriceMonotonicity.

(** ** Extreme thresholds *)

Section ThresholdExtremes.
Local Open Scope list_scope.
Local Open Scope R_scope.




End ThresholdExtremes.

(** ** The sweep driver *)

Section Sweep.
Local Open Scope list_scope.
Local Open Scope R_scope.

(** X18. Two cells of the sweep that both return describe the same pool
    position: the same initial price, liquidity, initial quote amount, final
    price, start and end values and pool PnL, whatever their thresholds and
    midpoint ratios are; each summary echoes its own two parameters.  Cells
    of one threshold moreover rebalance at the same ticks, against the same
    anchors, whatever their midpoint ratios are. *)
Theorem sweep_cells (cfg : Config.t R)
    (files : string -> result (list (timestamp * R)))
    (th1 k1 th2 k2 : R) (o1 o2 : Output.t R) :
  run_once cfg files th1 k1 = inr o1 ->
  run_once cfg files th2 k2 = inr o2 ->
  let s1 := Output.summary o1 in
  let s2 := Output.summary o2 in
  Summary.P0 s1 = Summary.P0 s2
  /\ Summary.L s1 = Summary.L s2
  /\ Summary.initial_usdt_required s1 = Summary.initial_usdt_required s2
  /\ Summary.final_price s1 = Summary.final_price s2
  /\ Summary.lp_value_start s1 = Summary.lp_value_start s2
  /\ Summary.lp_value_end s1 = Summary.lp_value_end s2
  /\ Summary.lp_pnl s1 = Summary.lp_pnl s2
  /\ Summary.threshold s1 = th1 /\ Summary.hedge_k0 s1 = k1
  /\ Summary.threshold s2 = th2 /\ Summary.hedge_k0 s2 = k2
  /\ (th1 = th2 ->
      map event_key (Output.rebalance_events o1)
      = map event_key (Output.rebalance_events o2)
      /\ Summary.rebalance_count s1 = Summary.rebalance_count s2).
Proof.
  unfold run_once. intros H1 H2.
  destruct (run_backtest_inv _ _ _ _ _ _ _ _ _ _ _ H1)
    as (d1 & first1 & rest1 & st1 & u1 & v1 & w1
        & Hload1 & Hwin1 & _ & Hcalc1 & Hv1 & Hit1 & Hw1 & ->).
  destruct (run_backtest_inv _ _ _ _ _ _ _ _ _ _ _ H2)
    as (d2 & first2 & rest2 & st2 & u2 & v2 & w2
        & Hload2 & Hwin2 & _ & Hcalc2 & Hv2 & Hit2 & Hw2 & ->).
  cbn [if_not_None] in *.
  rewrite Hload1 in Hload2. injection Hload2 as <-.
  rewrite Hwin1 in Hwin2. injection Hwin2 as <- <-.
  rewrite Hcalc1 in Hcalc2. injection Hcalc2 as <-.
  rewrite Hv1 in Hv2. injection Hv2 as <-.
  rewrite Hw1 in Hw2. injection Hw2 as <-.
  cbn [Output.summary Output.rebalance_events Summary.P0 Summary.L
       Summary.initial_usdt_required Summary.final_price
       Summary.lp_value_start Summary.lp_value_end Summary.lp_pnl
       Summary.threshold Summary.hedge_k0 Summary.rebalance_count].
  repeat (split; [reflexivity |]).
  intros <-.
  destruct (iterate_trigger_schedule _ _ _ _ _ _ _ _ Hit1)
    as (new1 & He1 & Hs1 & _ & _ & Hn1).
  destruct (iterate_trigger_schedule _ _ _ _ _ _ _ _ Hit2)
    as (new2 & He2 & Hs2 & _ & _ & Hn2).
  cbn [State.rebalance_events State.anchor_price State.rebalance_count
       app plus] in He1, He2, Hs1, Hs2, Hn1, Hn2.
  rewrite He1, He2, Hn1, Hn2, Hs1, Hs2.
  split; [reflexivity |].
  rewrite <- (length_map event_key new1), <- (length_map event_key new2).
  rewrite Hs1, Hs2. reflexivity.
Qed.

(** Every cell of a sweep over the frozen configuration and the sample file
    returns. *)
Lemma frozen_cell_completes (threshold hedge_k0 : R) :
  exists out,
    run_once frozen_config sample_files threshold hedge_k0 = inr out.
Proof.
  destruct sample_window as [Hload Hwin]. unfold run_once.
  eapply run_backtest_completes.
  - exact Hload.
  - exact Hwin.
  - cbn; lra.
  - cbn; lra.
  - cbn; lra.
  - cbn; lra.
  - exact sample_rows_positive.
Qed.

Lemma sweep_cells_witness :
  exists o1 o2,
    run_once frozen_config sample_files (5 / 100) (3 / 10) = inr o1
    /\ run_once frozen_config sample_files (5 / 100) (9 / 10) = inr o2
    /\ Summary.lp_pnl (Output.summary o1) = Summary.lp_pnl (Output.summary o2)
    /\ map event_key (Output.rebalance_events o1)
       = map event_key (Output.rebalance_events o2).
Proof.
  destruct (frozen_cell_completes (5 / 100) (3 / 10)) as [o1 H1].
  destruct (frozen_cell_completes (5 / 100) (9 / 10)) as [o2 H2].
  exists o1, o2. split; [exact H1 |]. split; [exact H2 |].
  pose proof (sweep_cells _ _ _ _ _ _ _ _ H1 H2) as Hs. cbn zeta in Hs.
  split; [apply Hs |].
  apply (proj2 (proj2 (proj2 (proj2 (proj2 (proj2 (proj2 (proj2 (proj2
           (proj2 (proj2 Hs))))))))))).
  reflexivity.
Defined.

End Sweep.

(** ** Choosing the columns *)

Section ColumnFacts.
Local Open Scope list_scope.
Variables (strip lower : string -> string).

Lemma dict_get_set {V : Type} (k c : string) (v : V) (d : dict V) :
  dict_get c (dict_set k v d)
  = if String.eqb k c then Some v else dict_get c d.
Proof.
  induction d as [| [k' v'] d IH]; cbn; [reflexivity |].
  destruct (String.eqb_spec k' k) as [-> | Hk]; cbn.
  - destruct (String.eqb k c); reflexivity.
  - destruct (String.eqb_spec k' c) as [-> | Hc].
    + destruct (String.eqb_spec k c) as [-> | _]; [contradiction | reflexivity].
    + exact IH.
Qed.

Lemma find_app_first {A : Type} (p : A -> bool) (l1 l2 : list A) :
  find p (l1 ++ l2)
  = match find p l1 with
    | Some x => Some x
    | None => find p l2
    end.
Proof.
  induction l1 as [| a l1 IH]; cbn; [reflexivity |].
  destruct (p a); [reflexivity | exact IH].
Qed.

(** Looking a key up after the comprehension: the last field name that
    normalises to it wins over the earlier ones and over the dict the
    comprehension started from. *)
Lemma fold_dict_get (c : string) (fieldnames : list (option string)) :
  forall d : dict string,
    dict_get c
      (fold_left
         (fun norm fn =>
            match fn with
            | Some fn => dict_set (lower (strip fn)) fn norm
            | None => norm
            end) fieldnames d)
    = match
        find (fun fn => match fn with
                        | Some fn => String.eqb (lower (strip fn)) c
                        | None => false
                        end) (rev fieldnames)
      with
      | Some (Some fn) => Some fn
      | _ => dict_get c d
      end.
Proof.
  induction fieldnames as [| fn fs IH]; intros d; [reflexivity |].
  cbn [fold_left rev]. rewrite IH. rewrite find_app_first.
  destruct (find _ (rev fs)) as [[g |] |] eqn:Hf; try reflexivity.
  - apply find_some in Hf. destruct Hf as [_ Hf]. discriminate.
  - cbn [find]. destruct fn as [f |]; [| reflexivity].
    rewrite dict_get_set. destruct (String.eqb (lower (strip f)) c); reflexivity.
Qed.

Lemma norm_dict_get_Some (c fn : string) (fieldnames : list (option string)) :
  dict_get c (norm_dict strip lower fieldnames) = Some fn
  <-> exists fpre fpost,
        fieldnames = fpre ++ Some fn :: fpost
        /\ lower (strip fn) = c
        /\ (forall f, In (Some f) fpost -> lower (strip f) <> c).
Proof.
  unfold norm_dict. rewrite fold_dict_get. cbn [dict_get].
  induction fieldnames as [| g fs IH] using rev_ind.
  - cbn. split; [discriminate |].
    intros (fpre & fpost & Hf & _). destruct fpre; discriminate.
  - rewrite rev_app_distr. cbn [rev app find].
    destruct g as [g |].
    + destruct (String.eqb_spec (lower (strip g)) c) as [Hg | Hg].
      * split.
        -- intros [= ->]. exists fs, []. repeat split; auto; intros f [].
        -- intros (fpre & fpost & Hf & Hn & Hlast).
           destruct fpost as [| p fpost' _] using rev_ind.
           ++ apply app_inj_tail in Hf. destruct Hf as [_ [= ->]]. reflexivity.
           ++ change (fpre ++ Some fn :: fpost' ++ [p])
                with (fpre ++ (Some fn :: fpost') ++ [p]) in Hf.
              rewrite app_assoc in Hf. apply app_inj_tail in Hf.
              destruct Hf as [_ <-].
              exfalso. apply (Hlast g); [| exact Hg].
              apply in_or_app. right. left. reflexivity.
      * rewrite IH. split.
        -- intros (fpre & fpost & -> & Hn & Hlast).
           exists fpre, (fpost ++ [Some g]). split.
           ++ rewrite <- app_assoc. reflexivity.
           ++ split; [exact Hn |]. intros f Hin.
              apply in_app_or in Hin. destruct Hin as [Hin | [[= ->] | []]].
              ** apply Hlast; assumption.
              ** exact Hg.
        -- intros (fpre & fpost & Hf & Hn & Hlast).
           destruct fpost as [| p fpost' _] using rev_ind.
           ++ apply app_inj_tail in Hf. destruct Hf as [_ [= ->]].
              contradiction.
           ++ change (fpre ++ Some fn :: fpost' ++ [p])
                with (fpre ++ (Some fn :: fpost') ++ [p]) in Hf.
              rewrite app_assoc in Hf. apply app_inj_tail in Hf.
              destruct Hf as [-> <-].
              exists fpre, fpost'. repeat split; auto.
              intros f Hin. apply Hlast. apply in_or_app. left. exact Hin.
    + rewrite IH. split.
      * intros (fpre & fpost & -> & Hn & Hlast).
        exists fpre, (fpost ++ [None]). split.
        -- rewrite <- app_assoc. reflexivity.
        -- split; [exact Hn |]. intros f Hin.
           apply in_app_or in Hin. destruct Hin as [Hin | [Hin | []]].
           ++ apply Hlast; assumption.
           ++ discriminate.
      * intros (fpre & fpost & Hf & Hn & Hlast).
        destruct fpost as [| p fpost' _] using rev_ind.
        -- apply app_inj_tail in Hf. destruct Hf as [_ Hf]. discriminate.
        -- change (fpre ++ Some fn :: fpost' ++ [p])
             with (fpre ++ (Some fn :: fpost') ++ [p]) in Hf.
           rewrite app_assoc in Hf. apply app_inj_tail in Hf.
           destruct Hf as [-> <-].
           exists fpre, fpost'. repeat split; auto.
           intros f Hin. apply Hlast. apply in_or_app. left. exact Hin.
Qed.

Lemma norm_dict_get_None (c : string) (fieldnames : list (option string)) :
  dict_get c (norm_dict strip lower fieldnames) = None
  <-> forall f, In (Some f) fieldnames -> lower (strip f) <> c.
Proof.
  split.
  - intros Hnone f Hin Hc.
    unfold norm_dict in Hnone. rewrite fold_dict_get in Hnone.
    cbn [dict_get] in Hnone.
    destruct (find _ (rev fieldnames)) as [[g |] |] eqn:Hf.
    + discriminate.
    + apply find_some in Hf. destruct Hf as [_ Hf]. discriminate.
    + pose proof (find_none _ _ Hf (Some f) (proj1 (in_rev _ _) Hin)) as Hx.
      cbn in Hx. rewrite Hc, String.eqb_refl in Hx. discriminate.
  - intros Hall.
    destruct (dict_get c (norm_dict strip lower fieldnames)) as [fn |] eqn:Hg;
      [| reflexivity].
    apply norm_dict_get_Some in Hg.
    destruct Hg as (fpre & fpost & -> & Hn & _).
    exfalso. apply (Hall fn); [| exact Hn].
    apply in_or_app. right. left. reflexivity.
Qed.

Lemma first_candidate_inr (norm : dict string) (candidates : list string)
    (fn : string) :
  first_candidate norm candidates = inr fn
  <-> exists c cpre cpost,
        candidates = cpre ++ c :: cpost
        /\ dict_get c norm = Some fn
        /\ (forall c', In c' cpre -> dict_get c' norm = None).
Proof.
  induction candidates as [| c cs IH]; cbn [first_candidate].
  - split; [discriminate |].
    intros (c & cpre & cpost & Hc & _). destruct cpre; discriminate.
  - destruct (dict_get c norm) as [g |] eqn:Hg.
    + split.
      * intros [= ->]. exists c, [], cs. repeat split; auto; intros c' [].
      * intros (c0 & cpre & cpost & Hc & Hget & Hpre).
        destruct cpre as [| c1 cpre].
        -- injection Hc as <- _. rewrite Hg in Hget.
           injection Hget as ->. reflexivity.
        -- injection Hc as <- _.
           rewrite (Hpre c (or_introl eq_refl)) in Hg. discriminate.
    + rewrite IH. split.
      * intros (c0 & cpre & cpost & -> & Hget & Hpre).
        exists c0, (c :: cpre), cpost. repeat split; auto.
        intros c' [<- | Hin]; [exact Hg | apply Hpre; exact Hin].
      * intros (c0 & cpre & cpost & Hc & Hget & Hpre).
        destruct cpre as [| c1 cpre].
        -- injection Hc as <- _. rewrite Hg in Hget. discriminate.
        -- injection Hc as <- ->.
           exists c0, cpre, cpost. repeat split; auto.
           intros c' Hin. apply Hpre. right. exact Hin.
Qed.

Lemma first_candidate_inl (norm : dict string) (candidates : list string)
    (e : column_error) :
  first_candidate norm candidates = inl e
  <-> forall c, In c candidates -> dict_get c norm = None.
Proof.
  induction candidates as [| c cs IH]; cbn [first_candidate].
  - destruct e. split; [intros _ c [] | reflexivity].
  - destruct (dict_get c norm) as [g |] eqn:Hg.
    + split; [discriminate |].
      intros Hall. rewrite (Hall c (or_introl eq_refl)) in Hg. discriminate.
    + rewrite IH. split.
      * intros Hall c' [<- | Hin]; [exact Hg | apply Hall; exact Hin].
      * intros Hall c' Hin. apply Hall. right. exact Hin.
Qed.

(** X19. [_pick_col] returns a field name exactly when some candidate is the
    normal form (stripped, lower-cased) of a field name: the candidate
    chosen is the first one, in candidate order, that any field name
    normalises to, and among the field names normalising to it the last one
    in the header is returned, in its original spelling.  It raises exactly
    when no candidate is the normal form of any field name; [None] entries
    of the header are ignored. *)
Theorem pick_col_spec (fieldnames : list (option string))
    (candidates : list string) :
  (forall fn : string,
      _pick_col strip lower fieldnames candidates = inr fn
      <-> exists c cpre cpost fpre fpost,
            candidates = cpre ++ c :: cpost
            /\ fieldnames = fpre ++ Some fn :: fpost
            /\ lower (strip fn) = c
            /\ (forall f, In (Some f) fpost -> lower (strip f) <> c)
            /\ (forall c' f, In c' cpre -> In (Some f) fieldnames ->
                             lower (strip f) <> c'))
  /\ (_pick_col strip lower fieldnames candidates = inl CannotFindColumns
      <-> forall c f, In c candidates -> In (Some f) fieldnames ->
                      lower (strip f) <> c).
Proof.
  unfold _pick_col. split.
  - intros fn. rewrite first_candidate_inr. split.
    + intros (c & cpre & cpost & Hc & Hget & Hpre).
      apply norm_dict_get_Some in Hget.
      destruct Hget as (fpre & fpost & Hf & Hn & Hlast).
      exists c, cpre, cpost, fpre, fpost. repeat split; auto.
      intros c' f Hin. apply norm_dict_get_None. apply Hpre. exact Hin.
    + intros (c & cpre & cpost & fpre & fpost & Hc & Hf & Hn & Hlast & Hpre).
      exists c, cpre, cpost. split; [exact Hc |]. split.
      * apply norm_dict_get_Some. exists fpre, fpost. auto.
      * intros c' Hin. apply norm_dict_get_None. intros f. apply Hpre.
        exact Hin.
  - rewrite first_candidate_inl. split.
    + intros Hall c f Hin. apply norm_dict_get_None. apply Hall. exact Hin.
    + intros Hall c Hin. apply norm_dict_get_None. intros f. apply Hall.
      exact Hin.
Qed.

End ColumnFacts.

(** A Binance-style header: [open_time] is chosen although [Date] comes
    first in the file, since it comes first among the candidates; of the two
    columns that normalise to [close], the later one is returned. *)
Example pick_col_binance_header :
  let header := [Some "Date"; Some " Close"; Some "Open_Time "; None;
                 Some "close "; Some "volume"]%string in
  _pick_col ascii_strip ascii_lower header
    ["timestamp"; "open_time"; "open_time_ms"; "time"; "date"]%string
  = inr "Open_Time "%string
  /\ _pick_col ascii_strip ascii_lower header ["close"; "close "]%string
     = inr "close "%string
  /\ _pick_col ascii_strip ascii_lower header ["price"]%string
     = inl CannotFindColumns.
Proof. repeat split. Qed.

(** ** Reading a timestamp *)

Section TimestampFacts.
Local Open Scope R_scope.

Lemma float_of_positive_IZR (p : positive) :
  float_of_positive p = IZR (Zpos p).
Proof.
  induction p as [p IH | p IH |]; cbn [float_of_positive fadd fmul f1 f2 RFloat].
  - rewrite IH, (Pos2Z.inj_xI p), (plus_IZR (2 * Z.pos p) 1),
      (mult_IZR 2 (Z.pos p)).
    reflexivity.
  - rewrite IH, (Pos2Z.inj_xO p), (mult_IZR 2 (Z.pos p)). reflexivity.
  - reflexivity.
Qed.

Variable strip : string -> string.
Variable fromisoformat_utc : string -> option timestamp.
Variable float_of_str : string -> result R.
Variable fromtimestamp : R -> result timestamp.

(** X20. A string that is no ISO date and reads as the number [x] is turned
    into the instant [sec] seconds after the epoch, where: [sec = x] when
    [|x| < 10^12]; [|sec| < 10^12] whenever [|x| < 10^21]; and an instant [t]
    with [10^9 <= |t| < 10^12] seconds is recovered whether the number gives
    it in seconds, milliseconds, microseconds or nanoseconds. *)
Theorem parse_ts_any_epoch_units (ts_raw : option string) (x : R) :
  fromisoformat_utc (replace_Z (strip (str_or ts_raw EmptyString))) = None ->
  float_of_str (strip (str_or ts_raw EmptyString)) = inr x ->
  exists sec : R,
    _parse_ts_any strip fromisoformat_utc float_of_str fromtimestamp ts_raw
    = fromtimestamp sec
    /\ (Rabs x < 1000000000000 -> sec = x)
    /\ (Rabs x < 1000000000000000000000 -> Rabs sec < 1000000000000)
    /\ (forall t : R,
          1000000000 <= Rabs t < 1000000000000 ->
          x = t \/ x = t * 1000 \/ x = t * 1000000 \/ x = t * 1000000000 ->
          sec = t).
Proof.
  intros Hiso Hnum. unfold _parse_ts_any. cbn zeta.
  rewrite Hiso, Hnum. cbn [bind].
  rewrite !float_of_positive_IZR. cbn [fleb fabs fdiv RFloat].
  destruct (Rleb_spec 1000000000000000000 (Rabs x)) as [H18 | H18];
    [| destruct (Rleb_spec 1000000000000000 (Rabs x)) as [H15 | H15];
       [| destruct (Rleb_spec 1000000000000 (Rabs x)) as [H12 | H12]]];
    eexists; (split; [reflexivity |]);
    (split; [intros Hx | split; [intros Hx | intros t Ht Hk]]);
    revert H18; try revert H15; try revert H12; try revert Hx;
    try revert Ht;
    try (destruct Hk as [-> | [-> | [-> | ->]]]);
    unfold Rabs; repeat destruct (Rcase_abs _); intros; lra.
Qed.

End TimestampFacts.

Lemma parse_ts_any_epoch_units_witness :
  exists sec : R,
    _parse_ts_any ascii_strip (fun _ => None)
      (fun _ => inr 1762473600000%R) (fun sec => inr (Int_part sec))
      (Some " 1762473600000 "%string)
    = inr (Int_part sec)
    /\ sec = 1762473600%R.
Proof.
  destruct (parse_ts_any_epoch_units ascii_strip (fun _ => None)
              (fun _ => inr 1762473600000%R) (fun sec => inr (Int_part sec))
              (Some " 1762473600000 "%string) 1762473600000%R
              eq_refl eq_refl)
    as (sec & Hparse & _ & _ & Hunits).
  exists sec. split; [exact Hparse |].
  apply Hunits.
  - rewrite Rabs_pos_eq by lra. lra.
  - right. left. lra.
Defined.

(** On binary64 the thresholds and divisors built by [float_of_positive] are
    the literals of the source. *)
Example epoch_literals_binary64 :
  map (fun p => PrimFloat.eqb (float_of_positive (fst p)) (snd p))
    [(1000%positive, 1e3%float); (1000000%positive, 1e6%float);
     (1000000000%positive, 1e9%float);
     (1000000000000%positive, 1e12%float);
     (1000000000000000%positive, 1e15%float);
     (1000000000000000000%positive, 1e18%float)]
  = [true; true; true; true; true; true].
Proof. vm_compute. reflexivity. Qed.

(** ** Binary64 rounding in the properties above *)

Section Binary64Further.
Local Open Scope float_scope.
#[local] Set Warnings "-inexact-float".

(** A target value of the smallest positive float gives a liquidity of 0,
    which the constructor rejects; a position sized to 100000 is worth
    100000.00000000003 at P0. *)
Example from_initial_value_on_binary64 :
  LPPosition.from_initial_value 2000 1800 2200 0x1p-1074
  = inl PositionLiquidityMustBePositive
  /\ (exists pos,
        LPPosition.from_initial_value 2000 1800 2200 100000 = inr pos
        /\ LPPosition.get_value pos 2000 = inr 100000.00000000003).
Proof. split; [| eexists; split]; vm_compute; reflexivity. Qed.

(** With the initial price fixed at the float just below the upper bound,
    the complementary-amount solver finds equal rounded square roots and the
    run fails with its denominator error. *)
Example run_backtest_boundary_on_binary64 :
  PrimFloat.ltb 2651 (PrimFloat.next_down 3498) = true
  /\ PrimFloat.ltb (PrimFloat.next_down 3498) 3498 = true
  /\ run_backtest (fixed_config64 (PrimFloat.next_down 3498)) sample_files64
       None None None None None None None None
     = inl (ValueError DeltaSqrtInvAnomaly).
Proof. vm_compute. repeat split. Qed.

(** A run without events (threshold 10): the hedge PnL is
    [0 + 0.7 * 2900 + (-0.7) * 3200], not [0.7 * (2900 - 3200)]. *)
Example hedge_pnl_on_binary64 :
  match run_backtest frozen_config64 sample_files64 None None None None None
          None None (Some 10) with
  | inr out =>
      Some (Output.rebalance_events out,
            Summary.hedge_pnl (Output.summary out))
  | inl _ => None
  end = Some ([], -210.00000000000023)
  /\ 1 * 0.7 * (2900 - 3200) = -210.
Proof. vm_compute. repeat split. Qed.

(** Sizing to 100000 at 2000 in [1800, 2200]: the solver returns the
    position's complementary amount, but the two amounts are worth
    100000.00000000003. *)
Example sizing_conventions_on_binary64 :
  exists L x y,
    L_from_initial_usd 2000 1800 2200 100000 = inr L
    /\ amounts_from_L 2000 1800 2200 L = inr (x, y)
    /\ calc_usdt_for_eth_in_pool 2000 1800 2200 x = inr y
    /\ x * 2000 + y = 100000.00000000003.
Proof. do 3 eexists. repeat split; vm_compute; reflexivity. Qed.

(** With the initial price fixed at 3248, the position of a run holds
    0.99999999999999989 of the primary asset at P0, for an amount of 1. *)
Example opening_position_on_binary64 :
  match run_backtest (fixed_config64 3248) sample_files64 None None None None
          None None None None with
  | inr out =>
      let s := Output.summary out in
      Some (Summary.eth_in_pool s,
            amounts_from_L (Summary.P0 s) (Summary.Pl s) (Summary.Pu s)
              (Summary.L s))
  | inl _ => None
  end = Some (1, inr (0.99999999999999989, 8617.2714506260127)).
Proof. vm_compute. reflexivity. Qed.

(** For k0 = 0.1 the ratio rises from the midpoint of the frozen range to
    the next float. *)
Example calculate_k_rises_on_binary64 :
  calculate_k 3074.5 2651 3498 0.1 = inr 0.099999999999999867
  /\ calculate_k (PrimFloat.next_up 3074.5) 2651 3498 0.1
     = inr 0.099999999999999895
  /\ PrimFloat.ltb 0.099999999999999867 0.099999999999999895 = true.
Proof. vm_compute. repeat split. Qed.

(** The value falls from 2900 to the next float, and is 0 between adjacent
    bounds. *)
Example lp_value_on_binary64 :
  lp_value 2900 2651 3498 600 = inr 4309.4851814810118
  /\ lp_value (PrimFloat.next_up 2900) 2651 3498 600 = inr 4309.4851814810099
  /\ lp_value 1 1 0x1.0000000000001p+0 1 = inr 0.
Proof. vm_compute. repeat split. Qed.

End Binary64Further.
